(** * HuggingFace text-to-image front-end: response interpretation and UI state

    A shallow embedding of [src/main.py] (class [HFTextToImageApp]).  The
    development follows the program: Python strings are sequences of code
    points, the parsed JSON body is a tree whose objects keep their insertion
    order, the closure [search_for_base64] threads its [nonlocal] variable
    explicitly, and the handlers run in a small exception-and-state monad over
    the widget state and a trace of outside-world effects. *)

From Stdlib Require Import ZArith NArith List Bool String Ascii Lia.
From Stdlib Require Import Strings.Byte DecimalString Floats.SpecFloat.
From Stdlib Require Import QArith Qpower Qminmax Lqa.
Import ListNotations.

Local Open Scope list_scope.
Local Open Scope Z_scope.

(** ** Python strings *)

(** A [str] is a sequence of Unicode code points; [len] counts code points. *)
Definition char := N.
Definition pystr := list char.

(** A source-code literal, as the [str] it denotes (ASCII literals only). *)
Definition lit (s : string) : pystr := map N_of_ascii (list_ascii_of_string s).

Definition len {A} (s : list A) : Z := Z.of_nat (List.length s).

(** [s[:n]] for a non-negative [n]. *)
Definition slice_to {A} (n : nat) (s : list A) : list A := firstn n s.

(** [c in s] for a one-character [c]. *)
Definition str_mem (c : char) (s : pystr) : bool := existsb (N.eqb c) s.

Fixpoint startswith (prefix s : pystr) : bool :=
  match prefix, s with
  | [], _ => true
  | p :: prefix', c :: s' => N.eqb p c && startswith prefix' s'
  | _ :: _, [] => false
  end.

(** [x in msg] for strings: [x] occurs in [msg] as a contiguous run. *)
Definition contains (msg x : pystr) : Prop :=
  exists before after, msg = before ++ x ++ after.

(** [str(n)] for an [int]. *)
Definition str_of_int (n : Z) : pystr := lit (NilZero.string_of_int (Z.to_int n)).

(** The ASCII rows of the table behind [str.isalnum]: digits and letters. *)
Definition ascii_isalnum (c : char) : bool :=
  ((48 <=? c) && (c <=? 57) || (65 <=? c) && (c <=? 90) || (97 <=? c) && (c <=? 122))%N.

(** [str.isspace] for one code point: the code points CPython lists as
    whitespace (bidirectional classes WS, B, S and category Zs). *)
Definition isspace (c : char) : bool :=
  ((9 <=? c) && (c <=? 13) || (28 <=? c) && (c <=? 32) || (c =? 133) || (c =? 160)
   || (c =? 5760) || (8192 <=? c) && (c <=? 8202) || (c =? 8232) || (c =? 8233)
   || (c =? 8239) || (c =? 8287) || (c =? 12288))%N.

Fixpoint lstrip (s : pystr) : pystr :=
  match s with
  | c :: s' => if isspace c then lstrip s' else s
  | [] => []
  end.

(** [s.strip()]: whitespace removed at both ends. *)
Definition strip (s : pystr) : pystr := rev (lstrip (rev (lstrip s))).

(** Truth value of a [str]: non-empty. *)
Definition str_truthy (s : pystr) : bool :=
  match s with [] => false | _ :: _ => true end.

(** ** Parsed JSON, as [resp.json()] returns it *)

(** A Python [float]: IEEE 754 binary64, by the executable specification of
    the standard library ([prec = 53], [emax = 1024]). *)
Definition pyfloat := spec_float.
Definition float_eqb (x y : pyfloat) : bool := SFeqb x y.
Definition float_ltb (x y : pyfloat) : bool := SFltb x y.
Definition float_mul (x y : pyfloat) : pyfloat := SFmul 53 1024 x y.
Definition float_div (x y : pyfloat) : pyfloat := SFdiv 53 1024 x y.

(** Numbers are [int] or [float]; a [dict] keeps insertion order, which is the
    order in which [values()] iterates. *)
Unset Elimination Schemes.
Inductive json : Type :=
| JNull
| JBool (b : bool)
| JInt (n : Z)
| JFloat (x : pyfloat)
| JStr (s : pystr)
| JList (items : list json)
| JDict (entries : list (pystr * json)).
Set Elimination Schemes.

(** [bool(v)]. *)
Definition truthy (v : json) : bool :=
  match v with
  | JNull => false
  | JBool b => b
  | JInt n => negb (n =? 0)
  | JFloat x => negb (float_eqb x (S754_zero false))
  | JStr s => str_truthy s
  | JList items => match items with [] => false | _ => true end
  | JDict entries => match entries with [] => false | _ => true end
  end.

(** [a == b] on two [str]. *)
Fixpoint pystr_eqb (a b : pystr) : bool :=
  match a, b with
  | [], [] => true
  | x :: a', y :: b' => N.eqb x y && pystr_eqb a' b'
  | _, _ => false
  end.

(** [d.get(key)] on the entries of a [dict]: the value or [None]. *)
Fixpoint dict_get (entries : list (pystr * json)) (key : pystr) : json :=
  match entries with
  | [] => JNull
  | (k, v) :: rest => if pystr_eqb k key then v else dict_get rest key
  end.

(** [isinstance(j, dict) and j.get("error")], as a truth value. *)
Definition has_error (j : json) : bool :=
  match j with
  | JDict entries => truthy (dict_get entries (lit "error"))
  | _ => false
  end.

(** [j.get('error')] where [j] is a [dict]. *)
Definition error_value (j : json) : json :=
  match j with
  | JDict entries => dict_get entries (lit "error")
  | _ => JNull
  end.

(** The induction principle for the nested tree. *)
Section JsonInd.
Variable P : json -> Prop.
Hypothesis Hnull : P JNull.
Hypothesis Hbool : forall b, P (JBool b).
Hypothesis Hint : forall n, P (JInt n).
Hypothesis Hfloat : forall z, P (JFloat z).
Hypothesis Hstr : forall s, P (JStr s).
Hypothesis Hlist : forall items, Forall P items -> P (JList items).
Hypothesis Hdict : forall entries, Forall (fun kv => P (snd kv)) entries -> P (JDict entries).

Fixpoint json_tree_ind (j : json) : P j :=
  match j with
  | JNull => Hnull
  | JBool b => Hbool b
  | JInt n => Hint n
  | JFloat z => Hfloat z
  | JStr s => Hstr s
  | JList items =>
      Hlist items
        ((fix go (l : list json) : Forall P l :=
            match l with
            | [] => Forall_nil _
            | v :: l' => Forall_cons v (json_tree_ind v) (go l')
            end) items)
  | JDict entries =>
      Hdict entries
        ((fix go (l : list (pystr * json)) : Forall (fun kv => P (snd kv)) l :=
            match l with
            | [] => Forall_nil _
            | kv :: l' => Forall_cons kv (json_tree_ind (snd kv)) (go l')
            end) entries)
  end.
End JsonInd.

(** ** What the program takes from Python and its libraries *)

(** A raised exception, kept as [str(e)]: the handler of [generate_image]
    looks at nothing else. *)
Definition exn := pystr.
Definition bytes := list byte.

(** A decoded [PIL.Image]: its [size] and its pixel data. *)
Record pil_image := { size : Z * Z; pixels : bytes }.

(** The library calls whose bodies are not part of the repository.  A call
    that may raise returns [inl] of the exception.
    - [unicode_isalnum]: the rows of the [str.isalnum] table beyond ASCII;
    - [repr]: [repr(v)] of a parsed JSON value;
    - [b64decode]: [base64.b64decode(s)];
    - [Image_open]: [Image.open(io.BytesIO(b)).convert("RGBA")];
    - [Image_resize]: [img.resize((w, h), Image.LANCZOS)]. *)
Class Runtime := {
  unicode_isalnum : char -> bool;
  repr : json -> pystr;
  b64decode : pystr -> exn + bytes;
  Image_open : bytes -> exn + pil_image;
  Image_resize : pil_image -> Z * Z -> exn + pil_image
}.

(** ** The response interpreter ([generate_image], lines 144-183) *)

(** What [requests.post] returned: the status code, the [content-type]
    header if present, the raw body, and what [resp.json()] does on it
    ([None] when it raises). *)
Record response := {
  status_code : Z;
  content_type : option pystr;
  content : bytes;
  json_result : option json
}.

(** The outcome of interpreting a response: the image bytes, or the message
    of the exception raised instead. *)
Inductive GenerationResult :=
| Image (image_bytes : bytes)
| Failure (message : exn).

Section Interpreter.
Context {rt : Runtime}.

(** [c.isalnum()] for one code point. *)
Definition isalnum (c : char) : bool :=
  if (c <? 128)%N then ascii_isalnum c else unicode_isalnum c.

(** The characters of the literal ["+/=\n\r"]. *)
Definition b64_symbols : pystr := [43; 47; 61; 10; 13]%N.

(** [c.isalnum() or c in "+/=\n\r"]. *)
Definition b64_char (c : char) : bool := isalnum c || str_mem c b64_symbols.

(** Line 168:
    [len(obj) > 200 and all(c.isalnum() or c in "+/=\n\r" for c in obj[:200])]. *)
Definition looks_like_base64 (obj : pystr) : bool :=
  (200 <? len obj) && forallb b64_char (slice_to 200 obj).

(** [found_b64] is [None] or a [str]; its truth value. *)
Definition found_truthy (found_b64 : option pystr) : bool :=
  match found_b64 with
  | Some s => str_truthy s
  | None => false
  end.

(** The closure [search_for_base64] (lines 162-175).  Its [nonlocal
    found_b64] comes in as the second argument and goes out as the result. *)
Fixpoint search_for_base64 (obj : json) (found_b64 : option pystr) : option pystr :=
  if found_truthy found_b64 then found_b64
  else
    match obj with
    | JStr s => if looks_like_base64 s then Some s else found_b64
    | JDict entries =>
        fold_left (fun found kv => search_for_base64 (snd kv) found) entries found_b64
    | JList items =>
        fold_left (fun found v => search_for_base64 v found) items found_b64
    | _ => found_b64
    end.

(** [f"{v}"]: [str(v)], which is [v] itself for a [str] and [repr(v)] for
    the other JSON values. *)
Definition py_str (v : json) : pystr :=
  match v with
  | JStr s => s
  | _ => repr v
  end.

(** [resp.headers.get] of the content type, the empty [str] by default. *)
Definition ctype_of (resp : response) : pystr :=
  match content_type resp with
  | Some c => c
  | None => []
  end.

(** [j]: the parsed body, or [None] when [resp.json()] raised. *)
Definition parsed (resp : response) : json :=
  match json_result resp with
  | Some v => v
  | None => JNull
  end.

Definition is_image_response (resp : response) : bool :=
  (status_code resp =? 200) && startswith (lit "image/") (ctype_of resp).

Definition api_error_message (j : json) : exn :=
  lit "Hugging Face API error: " ++ py_str (error_value j).

Definition unexpected_message (resp : response) (j : json) : exn :=
  lit "Unexpected API response (status " ++ str_of_int (status_code resp)
    ++ lit "): " ++ py_str j.

Definition not_json_message (resp : response) : exn :=
  lit "Unexpected API response (status " ++ str_of_int (status_code resp)
    ++ lit ") and not JSON. Content-type: " ++ ctype_of resp.

(** [base64.b64decode(found_b64)], its exception surfacing unchanged. *)
Definition decode_found (found_b64 : pystr) : GenerationResult :=
  match b64decode found_b64 with
  | inr image_bytes => Image image_bytes
  | inl e => Failure e
  end.

(** Lines 145-183: from the response to [image_bytes] or the exception. *)
Definition interpret_response (resp : response) : GenerationResult :=
  if is_image_response resp then Image (content resp)
  else
    let j := parsed resp in
    if has_error j then Failure (api_error_message j)
    else
      match j with
      | JNull => Failure (not_json_message resp)
      | _ =>
          match search_for_base64 j None with
          | Some found_b64 =>
              if str_truthy found_b64 then decode_found found_b64
              else Failure (unexpected_message resp j)
          | None => Failure (unexpected_message resp j)
          end
      end.
End Interpreter.

(** ** Arithmetic of [display_image] *)

(** An [int] as the exact operand of a true division. *)
Definition exact_operand (n : Z) : pyfloat :=
  match n with
  | Z0 => S754_zero false
  | Zpos p => S754_finite false p 0
  | Zneg p => S754_finite true p 0
  end.

(** [a / b] on two [int]s: the correctly rounded quotient, or the exception. *)
Definition int_truediv (a b : Z) : exn + pyfloat :=
  if b =? 0 then inl (lit "division by zero")
  else
    match float_div (exact_operand a) (exact_operand b) with
    | S754_infinity _ => inl (lit "integer division result too large for a float")
    | q => inr q
    end.

(** [float(n)], the conversion applied to the [int] operand of [n * x]. *)
Definition float_of_int (n : Z) : exn + pyfloat :=
  match binary_normalize 53 1024 n 0 false with
  | S754_infinity _ => inl (lit "int too large to convert to float")
  | x => inr x
  end.

(** [n * x] for an [int] and a [float]. *)
Definition int_mul_float (n : Z) (x : pyfloat) : exn + pyfloat :=
  match float_of_int n with
  | inl e => inl e
  | inr fn => inr (float_mul fn x)
  end.

(** The literal [1.0]. *)
Definition float_one : pyfloat := S754_finite false 4503599627370496 (-52).

(** [min(a, b, c)]: the first argument is kept until a later one is strictly
    smaller. *)
Definition min3 (a b c : pyfloat) : pyfloat :=
  let m := if float_ltb b a then b else a in
  if float_ltb c m then c else m.

(** [int(x)]: truncation towards zero. *)
Definition int_of_float (x : pyfloat) : exn + Z :=
  match x with
  | S754_zero _ => inr 0
  | S754_finite s m e =>
      inr (cond_Zopp s (match e with
                        | Zneg k => Zpos m / 2 ^ Zpos k
                        | _ => Zpos m * 2 ^ e
                        end))
  | S754_infinity _ => inl (lit "cannot convert float infinity to integer")
  | S754_nan => inl (lit "cannot convert float NaN to integer")
  end.

Definition max_w : Z := 768.
Definition max_h : Z := 512.

(** Lines 196-200: from [pil_img.size] to [(new_w, new_h)]. *)
Definition scaled_size (w h : Z) : exn + (Z * Z) :=
  match int_truediv max_w w with
  | inl e => inl e
  | inr rw =>
      match int_truediv max_h h with
      | inl e => inl e
      | inr rh =>
          let scale := min3 rw rh float_one in
          match int_mul_float w scale with
          | inl e => inl e
          | inr fw =>
              match int_of_float fw with
              | inl e => inl e
              | inr new_w =>
                  match int_mul_float h scale with
                  | inl e => inl e
                  | inr fh =>
                      match int_of_float fh with
                      | inl e => inl e
                      | inr new_h => inr (new_w, new_h)
                      end
                  end
              end
          end
      end
  end.

(** ** The value of a float, to state what the arithmetic computes *)

(** The rational number a finite float stands for. *)
Definition float_value (x : pyfloat) : Q :=
  match x with
  | S754_finite s m e => (inject_Z (cond_Zopp s (Zpos m)) * 2 ^ e)%Q
  | _ => 0%Q
  end.

(** A positive float in normal form: 53 digits of mantissa, exponent [e]. *)
Definition normal (x : pyfloat) (e : Z) : Prop :=
  exists m, x = S754_finite false m e /\ Zpos (digits2_pos m) = 53.

(** The relative distance between neighbouring floats, [2 ^ -52]. *)
Definition ulp_rel : Q := 1 # 4503599627370496.

(** The factor as the specification writes it, in exact arithmetic:
    [min(max_w / w, max_h / h, 1)]. *)
Definition ideal_factor (w h : Z) : Q :=
  Qmin (Qmin (inject_Z max_w / inject_Z w) (inject_Z max_h / inject_Z h)) 1.

(** ** Widget state and outside-world effects *)

Definition DEFAULT_MODEL : pystr := lit "runwayml/stable-diffusion-v1-5".
Definition HF_API_URL_TEMPLATE (model : pystr) : pystr :=
  lit "https://api-inference.huggingface.co/models/" ++ model.

(** An image item on the canvas. *)
Record canvas_item := { position : Z * Z; item_image : pil_image; anchor : pystr }.

(** The attributes of [HFTextToImageApp] the handlers read and write.  An
    [IntVar] field holds what its [get()] does: the integer, or the exception
    raised when the entry does not hold one. *)
Record app := {
  prompt_text : pystr;
  api_token_var : pystr;
  model_var : pystr;
  width_var : exn + Z;
  height_var : exn + Z;
  steps_var : exn + Z;
  status_var : pystr;
  generated_image : option pil_image;
  photo_image : option pil_image;
  canvas : list canvas_item
}.

Definition with_status (text : pystr) (st : app) : app :=
  {| prompt_text := prompt_text st; api_token_var := api_token_var st;
     model_var := model_var st; width_var := width_var st;
     height_var := height_var st; steps_var := steps_var st;
     status_var := text; generated_image := generated_image st;
     photo_image := photo_image st; canvas := canvas st |}.

Definition with_generated_image (img : option pil_image) (st : app) : app :=
  {| prompt_text := prompt_text st; api_token_var := api_token_var st;
     model_var := model_var st; width_var := width_var st;
     height_var := height_var st; steps_var := steps_var st;
     status_var := status_var st; generated_image := img;
     photo_image := photo_image st; canvas := canvas st |}.

Definition with_photo_image (img : option pil_image) (st : app) : app :=
  {| prompt_text := prompt_text st; api_token_var := api_token_var st;
     model_var := model_var st; width_var := width_var st;
     height_var := height_var st; steps_var := steps_var st;
     status_var := status_var st; generated_image := generated_image st;
     photo_image := img; canvas := canvas st |}.

Definition with_canvas (items : list canvas_item) (st : app) : app :=
  {| prompt_text := prompt_text st; api_token_var := api_token_var st;
     model_var := model_var st; width_var := width_var st;
     height_var := height_var st; steps_var := steps_var st;
     status_var := status_var st; generated_image := generated_image st;
     photo_image := photo_image st; canvas := items |}.

(** The arguments handed to the worker thread. *)
Record request := {
  req_token : pystr;
  req_model : pystr;
  req_prompt : pystr;
  req_width : Z;
  req_height : Z;
  req_steps : Z
}.

(** What the program does to the world outside its own attributes, in the
    order it does it. *)
Inductive event :=
| showwarning (title message : pystr)
| showinfo (title message : pystr)
| showerror (title message : pystr)
| thread_start (args : request)
| requests_post (url : pystr) (headers : list (pystr * pystr)) (payload : json) (timeout : Z)
| image_save (img : pil_image) (filename : pystr).

Definition is_network_call (ev : event) : bool :=
  match ev with requests_post _ _ _ _ => true | _ => false end.

Definition is_thread_start (ev : event) : bool :=
  match ev with thread_start _ => true | _ => false end.

Definition is_file_write (ev : event) : bool :=
  match ev with image_save _ _ => true | _ => false end.

(** ** The monad of the handlers: attributes, effect trace, exceptions *)

Record world := { ui : app; trace : list event }.

Definition M (A : Type) : Type := world -> (exn + A) * world.

Definition ret {A} (a : A) : M A := fun w => (inr a, w).

Definition bind {A B} (m : M A) (k : A -> M B) : M B :=
  fun w =>
    match m w with
    | (inr a, w') => k a w'
    | (inl e, w') => (inl e, w')
    end.

Definition raise {A} (e : exn) : M A := fun w => (inl e, w).

(** [try: body / except Exception as e: handler(e)]. *)
Definition try_except {A} (body : M A) (handler : exn -> M A) : M A :=
  fun w =>
    match body w with
    | (inr a, w') => (inr a, w')
    | (inl e, w') => handler e w'
    end.

Definition get_app : M app := fun w => (inr (ui w), w).

Definition modify (f : app -> app) : M unit :=
  fun w => (inr tt, {| ui := f (ui w); trace := trace w |}).

Definition emit (ev : event) : M unit :=
  fun w => (inr tt, {| ui := ui w; trace := trace w ++ [ev] |}).

(** A library call that returns or raises. *)
Definition call {A} (r : exn + A) : M A :=
  match r with
  | inr a => ret a
  | inl e => raise e
  end.

Notation "x <- m ;; k" := (bind m (fun x => k))
  (at level 61, m at next level, right associativity).
Notation "m ;;; k" := (bind m (fun _ => k))
  (at level 61, right associativity).

(** ** The handlers of [HFTextToImageApp] *)

Section Handlers.
Context {rt : Runtime}.

(** Lines 91-93. *)
Definition set_status (text : pystr) : M unit := modify (with_status text).

(** Lines 201-206: resize to [new_size], keep the photo image, redraw. *)
Definition show_resized (pil_img : pil_image) (new_size : Z * Z) : M unit :=
  resized <- call (Image_resize pil_img new_size) ;;
  modify (with_photo_image (Some resized)) ;;;
  modify (with_canvas []) ;;;
  st <- get_app ;;
  modify (with_canvas
            (canvas st ++ [{| position := (max_w / 2, max_h / 2);
                              item_image := resized;
                              anchor := lit "center" |}])).

(** Lines 194-206. *)
Definition display_image (pil_img : pil_image) : M unit :=
  let '(w, h) := size pil_img in
  new_size <- call (scaled_size w h) ;;
  show_resized pil_img new_size.

(** [requests.post(...)]: the call is issued, and the network answers with
    a response or with a transport exception. *)
Definition post (net : exn + response) (url : pystr)
    (headers : list (pystr * pystr)) (payload : json) (timeout : Z) : M response :=
  emit (requests_post url headers payload timeout) ;;;
  call net.

Definition request_headers (token : pystr) : list (pystr * pystr) :=
  [(lit "Authorization", lit "Bearer " ++ token); (lit "Accept", lit "image/png")].

Definition request_payload (prompt : pystr) (width height steps : Z) : json :=
  JDict [(lit "inputs", JStr prompt);
         (lit "parameters",
          JDict [(lit "width", JInt width);
                 (lit "height", JInt height);
                 (lit "num_inference_steps", JInt steps)]);
         (lit "options", JDict [(lit "wait_for_model", JBool true)])].

(** Lines 116-192.  [net] is what the network does with the one request. *)
Definition generate_image (net : exn + response) (args : request) : M unit :=
  try_except
    (set_status (lit "Preparing model / sending request...") ;;;
     let api_url := HF_API_URL_TEMPLATE (req_model args) in
     let headers := request_headers (req_token args) in
     let payload :=
       request_payload (req_prompt args) (req_width args) (req_height args)
         (req_steps args) in
     set_status (lit "Contacting Hugging Face inference API (this may take a while)...") ;;;
     resp <- post net api_url headers payload 600 ;;
     image_bytes <- match interpret_response resp with
                    | Image b => ret b
                    | Failure e => raise e
                    end ;;
     img <- call (Image_open image_bytes) ;;
     modify (with_generated_image (Some img)) ;;;
     display_image img ;;;
     set_status (lit "Image generated successfully."))
    (fun e =>
       set_status (lit "Error: " ++ e) ;;;
       emit (showerror (lit "Generation error") e)).

(** The dialogs of lines 98, 103 and 216. *)
Definition no_image_dialog : event :=
  showinfo (lit "No image") (lit "No generated image to save.").

Definition prompt_missing_dialog : event :=
  showwarning (lit "Prompt missing")
    (lit "Please enter a text prompt to generate an image.").

Definition token_missing_dialog : event :=
  showwarning (lit "API token missing")
    (lit "Provide a Hugging Face API token in the top field or set HF_API_TOKEN environment variable.").

(** [a or b] where [a] is a [str] and [b] is a [str] or [None]. *)
Definition str_or (a : pystr) (b : option pystr) : option pystr :=
  if str_truthy a then Some a else b.

(** Lines 95-114.  [getenv_token] is [os.getenv("HF_API_TOKEN")]. *)
Definition on_generate_clicked (getenv_token : option pystr) : M unit :=
  st <- get_app ;;
  let prompt := strip (prompt_text st) in
  if negb (str_truthy prompt) then
    emit prompt_missing_dialog
  else
    let token := str_or (strip (api_token_var st)) getenv_token in
    if negb (found_truthy token) then
      emit token_missing_dialog
    else
      let model :=
        if str_truthy (strip (model_var st)) then strip (model_var st)
        else DEFAULT_MODEL in
      width <- call (width_var st) ;;
      height <- call (height_var st) ;;
      steps <- call (steps_var st) ;;
      emit (thread_start
              {| req_token := match token with Some t => t | None => [] end;
                 req_model := model; req_prompt := prompt;
                 req_width := width; req_height := height; req_steps := steps |}).

(** Lines 208-212. *)
Definition clear_image : M unit :=
  modify (with_canvas []) ;;;
  modify (with_generated_image None) ;;;
  modify (with_photo_image None) ;;;
  set_status (lit "Cleared image.").

Definition filename : pystr := lit "hf_generated_image.png".

(** Lines 214-224.  [fs] is what the file system does with the write:
    nothing to report, or an exception. *)
Definition save_image (fs : option exn) : M unit :=
  st <- get_app ;;
  match generated_image st with
  | None => emit no_image_dialog
  | Some img =>
      try_except
        (emit (image_save img filename) ;;;
         match fs with
         | Some e => raise e
         | None => emit (showinfo (lit "Saved") (lit "Image saved as " ++ filename))
         end)
        (fun e => emit (showerror (lit "Save error") e))
  end.

(** "Save Image" pressed once for each answer of the file system. *)
Fixpoint save_many (answers : list (option exn)) : M unit :=
  match answers with
  | [] => ret tt
  | fs :: rest => save_image fs ;;; save_many rest
  end.

(** One click on "Generate Image" in the schedule where nothing else runs
    until the worker is done: the handler on the UI thread, then the body of
    every worker thread it started.  The program has other schedules, in
    which callbacks of the UI thread run between the steps of a worker; what
    is stated through [dispatch] is either about a click that starts no
    thread or about attributes no step of a worker writes. *)
Fixpoint run_threads (net : exn + response) (started : list event) : M unit :=
  match started with
  | [] => ret tt
  | thread_start args :: rest => generate_image net args ;;; run_threads net rest
  | _ :: rest => run_threads net rest
  end.

Definition dispatch (getenv_token : option pystr) (net : exn + response) : M unit :=
  fun w =>
    match on_generate_clicked getenv_token {| ui := ui w; trace := [] |} with
    | (r, w') =>
        match run_threads net (trace w') {| ui := ui w'; trace := trace w ++ trace w' |} with
        | (_, w'') => (r, w'')
        end
    end.
End Handlers.

(** ** The traversal the specification describes *)

(** The string values of a parsed body in depth-first order: the values of an
    object in iteration order, the elements of a list in index order. *)
Fixpoint dfs_strings (j : json) : list pystr :=
  match j with
  | JStr s => [s]
  | JList items => flat_map dfs_strings items
  | JDict entries => flat_map (fun kv => dfs_strings (snd kv)) entries
  | _ => []
  end.

Section Traversal.
Context {rt : Runtime}.

(** The first string of the traversal that passes the heuristic. *)
Definition first_candidate (j : json) : option pystr :=
  find looks_like_base64 (dfs_strings j).

(** A hit of the search replaces what was held; no hit leaves it. *)
Definition keep_or (hit found : option pystr) : option pystr :=
  match hit with Some s => Some s | None => found end.

(** No string inside [j] passes the heuristic. *)
Definition no_candidate (j : json) : Prop :=
  Forall (fun s => looks_like_base64 s = false) (dfs_strings j).

(** [nested_at s d j]: the string [s] sits [d] containers deep inside [j],
    at any position among its siblings at every level; the siblings before
    it on the way hold no string that passes the heuristic. *)
Inductive nested_at (s : pystr) : nat -> json -> Prop :=
| nested_here : nested_at s 0 (JStr s)
| nested_in_list d before v after :
    Forall no_candidate before ->
    nested_at s d v ->
    nested_at s (S d) (JList (before ++ v :: after))
| nested_in_dict d before k v after :
    Forall (fun kv => no_candidate (snd kv)) before ->
    nested_at s d v ->
    nested_at s (S d) (JDict (before ++ (k, v) :: after)).

(** The outcome of lines 176-183 as a function of the search: the decoded
    hit, or the failure that names the body ([j] is [None] exactly when the
    message is the one for a body that is not JSON). *)
Definition after_search (resp : response) (j : json) : GenerationResult :=
  match search_for_base64 j None with
  | Some found => decode_found found
  | None =>
      Failure (match j with
               | JNull => not_json_message resp
               | _ => unexpected_message resp j
               end)
  end.
End Traversal.

(** A character of the base64 alphabet: letters, digits, [+], [/] and the
    padding [=]. *)
Definition base64_alphabet (c : char) : bool :=
  (ascii_isalnum c || (c =? 43) || (c =? 47) || (c =? 61))%N.

(** The failure paths of [generate_image] that precede the assignment of
    line 187, named as the error taxonomy names them. *)
Section FailurePaths.
Context {rt : Runtime}.

Inductive failure_path : exn + response -> Prop :=
| transport_error e : failure_path (inl e)
| api_error resp :
    is_image_response resp = false ->
    has_error (parsed resp) = true ->
    failure_path (inr resp)
| response_shape_error resp :
    is_image_response resp = false ->
    has_error (parsed resp) = false ->
    search_for_base64 (parsed resp) None = None \/ parsed resp = JNull ->
    failure_path (inr resp)
| base64_decode_error resp found e :
    is_image_response resp = false ->
    has_error (parsed resp) = false ->
    parsed resp <> JNull ->
    search_for_base64 (parsed resp) None = Some found ->
    b64decode found = inl e ->
    failure_path (inr resp)
| image_decode_error resp image_bytes e :
    interpret_response resp = Image image_bytes ->
    Image_open image_bytes = inl e ->
    failure_path (inr resp).
End FailurePaths.

(** ** A runtime to evaluate the program on concrete inputs *)

(** The value of a character of the standard base64 alphabet. *)
Definition b64_value (c : char) : option N :=
  (if (65 <=? c) && (c <=? 90) then Some (c - 65)
   else if (97 <=? c) && (c <=? 122) then Some (c - 71)
   else if (48 <=? c) && (c <=? 57) then Some (c + 4)
   else if c =? 43 then Some 62
   else if c =? 47 then Some 63
   else None)%N.

Definition byte_of_N (n : N) : byte :=
  match Byte.of_N (n mod 256) with
  | Some b => b
  | None => x00
  end.

(** The decoding loop of [binascii.a2b_base64] in its lenient mode:
    characters outside the alphabet are skipped, a completed run of padding
    ends the input, and data left in an open quad is an error.  [out] is the
    output so far, last byte first. *)
Fixpoint a2b_base64 (data : pystr) (quad_pos : nat) (leftchar : N) (pads : nat)
    (out : list byte) : exn + bytes :=
  match data with
  | [] =>
      match quad_pos with
      | O => inr (rev out)
      | S O =>
          inl (lit "Invalid base64-encoded string: number of data characters ("
                 ++ str_of_int (len out / 3 * 4 + 1)
                 ++ lit ") cannot be 1 more than a multiple of 4")
      | _ => inl (lit "Incorrect padding")
      end
  | c :: rest =>
      if (c =? 61)%N then
        if (2 <=? quad_pos)%nat then
          if (4 <=? quad_pos + S pads)%nat then inr (rev out)
          else a2b_base64 rest quad_pos leftchar (S pads) out
        else a2b_base64 rest quad_pos leftchar pads out
      else
        match b64_value c with
        | None => a2b_base64 rest quad_pos leftchar pads out
        | Some v =>
            match quad_pos with
            | O => a2b_base64 rest 1 v 0 out
            | S O =>
                a2b_base64 rest 2 (N.land v 15) 0
                  (byte_of_N (N.lor (N.shiftl leftchar 2) (N.shiftr v 4)) :: out)
            | S (S O) =>
                a2b_base64 rest 3 (N.land v 3) 0
                  (byte_of_N (N.lor (N.shiftl leftchar 4) (N.shiftr v 2)) :: out)
            | _ =>
                a2b_base64 rest 0 0 0
                  (byte_of_N (N.lor (N.shiftl leftchar 6) v) :: out)
            end
        end
  end.

(** [base64.b64decode] on a [str]: ASCII only, then the lenient decoder. *)
Definition b64decode_ascii (s : pystr) : exn + bytes :=
  if forallb (fun c => (c <? 128)%N) s then a2b_base64 s 0 0 0 []
  else inl (lit "string argument should contain only ASCII characters").

(** One of the 64 characters of the alphabet, those that carry six bits:
    letters, digits, [+] and [/].  The padding [=] carries none. *)
Definition base64_data_char (c : char) : bool :=
  match b64_value c with
  | Some _ => true
  | None => false
  end.

(** The character of a six-bit value. *)
Definition b64_char_of (v : N) : char :=
  (if v <? 26 then v + 65
   else if v <? 52 then v + 71
   else if v <? 62 then v - 4
   else if v =? 62 then 43
   else 47)%N.

(** [base64.b64encode]: three bytes to four characters, the last group
    padded. *)
Fixpoint b64encode (data : bytes) : pystr :=
  match data with
  | [] => []
  | [b0] =>
      let n0 := Byte.to_N b0 in
      [b64_char_of (N.shiftr n0 2); b64_char_of (N.shiftl (N.land n0 3) 4); 61; 61]%N
  | [b0; b1] =>
      let n0 := Byte.to_N b0 in
      let n1 := Byte.to_N b1 in
      [b64_char_of (N.shiftr n0 2);
       b64_char_of (N.lor (N.shiftl (N.land n0 3) 4) (N.shiftr n1 4));
       b64_char_of (N.shiftl (N.land n1 15) 2); 61]%N
  | b0 :: b1 :: b2 :: rest =>
      let n0 := Byte.to_N b0 in
      let n1 := Byte.to_N b1 in
      let n2 := Byte.to_N b2 in
      b64_char_of (N.shiftr n0 2)
        :: b64_char_of (N.lor (N.shiftl (N.land n0 3) 4) (N.shiftr n1 4))
        :: b64_char_of (N.lor (N.shiftl (N.land n1 15) 2) (N.shiftr n2 6))
        :: b64_char_of (N.land n2 63)
        :: b64encode rest
  end.

(** The three bytes [a2b_base64] assembles from four six-bit values. *)
Definition quad_byte0 (v0 v1 : N) : N :=
  (N.lor (N.shiftl v0 2) (N.shiftr v1 4) mod 256)%N.

Definition quad_byte1 (v1 v2 : N) : N :=
  (N.lor (N.shiftl (N.land v1 15) 4) (N.shiftr v2 2) mod 256)%N.

Definition quad_byte2 (v2 v3 : N) : N :=
  (N.lor (N.shiftl (N.land v2 3) 6) v3 mod 256)%N.

Definition sextets : list N := map N.of_nat (seq 0 64).

(** The encoder reads the four values back out of the three bytes; each of
    the four equations involves at most three neighbouring values, and is
    checked on all of them. *)
Definition sextets_round_trip : bool :=
  forallb (fun a => forallb (fun b => forallb (fun c =>
     (N.shiftr (quad_byte0 a b) 2 =? a)
     && (N.lor (N.shiftl (N.land (quad_byte0 a b) 3) 4) (N.shiftr (quad_byte1 b c) 4) =? b)
     && (N.lor (N.shiftl (N.land (quad_byte1 a b) 15) 2) (N.shiftr (quad_byte2 b c) 6) =? b)
     && (N.land (quad_byte2 b c) 63 =? c))%N sextets) sextets) sextets.

(** [repr] of the values the examples print: [None], booleans, integers,
    lists, dicts, and strings of plain characters (no quote, no backslash, no
    control character); a float prints as its sign and mantissa-exponent
    pair. *)
Fixpoint join (sep : pystr) (parts : list pystr) : pystr :=
  match parts with
  | [] => []
  | [p] => p
  | p :: rest => p ++ sep ++ join sep rest
  end.

Definition quote (s : pystr) : pystr := lit "'" ++ s ++ lit "'".

Fixpoint repr_plain (v : json) : pystr :=
  match v with
  | JNull => lit "None"
  | JBool true => lit "True"
  | JBool false => lit "False"
  | JInt n => str_of_int n
  | JFloat (S754_zero false) => lit "0.0"
  | JFloat (S754_zero true) => lit "-0.0"
  | JFloat (S754_infinity false) => lit "inf"
  | JFloat (S754_infinity true) => lit "-inf"
  | JFloat S754_nan => lit "nan"
  | JFloat (S754_finite s m e) =>
      (if s then lit "-" else []) ++ str_of_int (Zpos m) ++ lit "*2**" ++ str_of_int e
  | JStr s => quote s
  | JList items => lit "[" ++ join (lit ", ") (map repr_plain items) ++ lit "]"
  | JDict entries =>
      lit "{"
        ++ join (lit ", ")
             (map (fun kv => quote (fst kv) ++ lit ": " ++ repr_plain (snd kv)) entries)
        ++ lit "}"
  end.

(** The PNG signature, by which the example decoder tells an image. *)
Definition png_signature : bytes := [x89; x50; x4e; x47; x0d; x0a; x1a; x0a].

(** The example image decoder: a PNG signature, then width and height as two
    bytes each, high byte first. *)
Definition open_example (b : bytes) : exn + pil_image :=
  if list_eq_dec Byte.byte_eq_dec (firstn 8 b) png_signature then
    match skipn 8 b with
    | w1 :: w0 :: h1 :: h0 :: rest =>
        inr {| size := (256 * Z.of_N (Byte.to_N w1) + Z.of_N (Byte.to_N w0),
                        256 * Z.of_N (Byte.to_N h1) + Z.of_N (Byte.to_N h0));
               pixels := rest |}
    | _ => inl (lit "cannot identify image file")
    end
  else inl (lit "cannot identify image file").

(** The example resize refuses an empty target, as Pillow does. *)
Definition resize_example (img : pil_image) (new_size : Z * Z) : exn + pil_image :=
  if (fst new_size <? 1) || (snd new_size <? 1)
  then inl (lit "height and width must be > 0")
  else inr {| size := new_size; pixels := pixels img |}.

(** The body [{"error": "x"}], byte by byte. *)
Definition error_x_body : bytes :=
  [x7b; x22; x65; x72; x72; x6f; x72; x22; x3a; x20; x22; x78; x22; x7d].

(** Status 200, an image content type, and a body that is a JSON error. *)
Definition image_typed_error : response :=
  {| status_code := 200;
     content_type := Some (lit "image/png");
     content := error_x_body;
     json_result := Some (JDict [(lit "error", JStr (lit "x"))]) |}.

(** 300 times the letter [A]: the base64 text of 225 zero bytes. *)
Definition three_hundred_A : pystr := repeat 65%N 300.

(** Status 500 and an object whose ["error"] is the empty string, next to a
    base64 payload. *)
Definition empty_error_with_payload : response :=
  {| status_code := 500;
     content_type := Some (lit "application/json");
     content := [];
     json_result :=
       Some (JDict [(lit "error", JStr []); (lit "image", JStr three_hundred_A)]) |}.

(** A payload three containers deep, after a sibling that is not a string:
    [{"data": [{"id": 7, "b64": "AAA..."}]}]. *)
Definition nested_payload : json :=
  JDict [(lit "data",
          JList [JDict [(lit "id", JInt 7); (lit "b64", JStr three_hundred_A)]])].

Definition nested_payload_response : response :=
  {| status_code := 200;
     content_type := Some (lit "application/json");
     content := [];
     json_result := Some nested_payload |}.

(** 300 characters that pass the heuristic and do not decode: the padding
    character, then 299 times the letter [A]; and a body that holds them
    where [nested_payload] holds its payload. *)
Definition padding_led_text : pystr := 61%N :: repeat 65%N 299.

Definition padding_led_response : response :=
  {| status_code := 200;
     content_type := Some (lit "application/json");
     content := [];
     json_result :=
       Some (JDict [(lit "data",
                     JList [JDict [(lit "id", JInt 7);
                                   (lit "b64", JStr padding_led_text)]])]) |}.

(** 300 times the letter [B], and a body with two candidates. *)
Definition three_hundred_B : pystr := repeat 66%N 300.

Definition two_payloads_response : response :=
  {| status_code := 200;
     content_type := Some (lit "application/json");
     content := [];
     json_result := Some (JList [JStr three_hundred_A; JStr three_hundred_B]) |}.

(** A PNG of 1024 by 512 pixels for the example decoder, served as an image. *)
Definition png_bytes : bytes := png_signature ++ [x04; x00; x02; x00].

(** A PNG of 2048 by 1 pixels: its height scales to zero. *)
Definition thin_response : response :=
  {| status_code := 200;
     content_type := Some (lit "image/png");
     content := png_signature ++ [x08; x00; x00; x01];
     json_result := None |}.

Definition png_response : response :=
  {| status_code := 200;
     content_type := Some (lit "image/png");
     content := png_bytes;
     json_result := None |}.

(** A gateway error page. *)
Definition html_response : response :=
  {| status_code := 503;
     content_type := Some (lit "text/html");
     content := [];
     json_result := None |}.

(** Status 404 and [{"error": "x"}]. *)
Definition error_x_response : response :=
  {| status_code := 404;
     content_type := Some (lit "application/json");
     content := error_x_body;
     json_result := Some (JDict [(lit "error", JStr (lit "x"))]) |}.

(** The window as [__init__] leaves it when [HF_API_TOKEN] is not set, with
    [prompt] typed into the prompt box. *)
Definition fresh_app (prompt : pystr) : app :=
  {| prompt_text := prompt ++ [10%N];
     api_token_var := [];
     model_var := DEFAULT_MODEL;
     width_var := inr 512; height_var := inr 512; steps_var := inr 25;
     status_var := lit "Ready";
     generated_image := None; photo_image := None; canvas := [] |}.

Definition fresh_world (prompt : pystr) : world :=
  {| ui := fresh_app prompt; trace := [] |}.

Definition example_request : request :=
  {| req_token := lit "hf_token"; req_model := DEFAULT_MODEL;
     req_prompt := lit "a cat"; req_width := 512; req_height := 512;
     req_steps := 25 |}.

Definition example_runtime : Runtime :=
  {| unicode_isalnum := fun _ => false;
     repr := repr_plain;
     b64decode := b64decode_ascii;
     Image_open := open_example;
     Image_resize := resize_example |}.

(** ** The window and what the user does to it *)

(** The item line 206 creates. *)
Definition image_item (resized : pil_image) : canvas_item :=
  {| position := (max_w / 2, max_h / 2); item_image := resized;
     anchor := lit "center" |}.

(** What the user types: prompt, token, model and the three numbers. *)
Definition form_of (st : app) :
    pystr * pystr * pystr * ((exn + Z) * (exn + Z) * (exn + Z)) :=
  (prompt_text st, api_token_var st, model_var st,
   (width_var st, height_var st, steps_var st)).

(** The user editing the form. *)
Definition with_form (prompt token model : pystr) (width height steps : exn + Z)
    (st : app) : app :=
  {| prompt_text := prompt; api_token_var := token; model_var := model;
     width_var := width; height_var := height; steps_var := steps;
     status_var := status_var st; generated_image := generated_image st;
     photo_image := photo_image st; canvas := canvas st |}.

(** What the user does to the window, with what the outside world answers. *)
Inductive action :=
| Edit (prompt token model : pystr) (width height steps : exn + Z)
| Generate (getenv_token : option pystr) (net : exn + response)
| Clear
| Save (fs : option exn).

Definition is_edit (a : action) : bool :=
  match a with Edit _ _ _ _ _ _ => true | _ => false end.

Section Actions.
Context {rt : Runtime}.

Definition perform (a : action) : M unit :=
  match a with
  | Edit prompt token model width height steps =>
      modify (with_form prompt token model width height steps)
  | Generate getenv_token net => dispatch getenv_token net
  | Clear => clear_image
  | Save fs => save_image fs
  end.

(** The call of line 142 for the arguments of the thread. *)
Definition posted_request (args : request) : event :=
  requests_post (HF_API_URL_TEMPLATE (req_model args))
    (request_headers (req_token args))
    (request_payload (req_prompt args) (req_width args) (req_height args)
       (req_steps args))
    600.

Definition generation_error_dialog (e : exn) : event :=
  showerror (lit "Generation error") e.

(** The arguments line 113 hands to the thread. *)
Definition thread_args (getenv_token : option pystr) (st : app)
    (width height steps : Z) : request :=
  {| req_token := match str_or (strip (api_token_var st)) getenv_token with
                  | Some t => t
                  | None => []
                  end;
     req_model := if str_truthy (strip (model_var st)) then strip (model_var st)
                  else DEFAULT_MODEL;
     req_prompt := strip (prompt_text st);
     req_width := width; req_height := height; req_steps := steps |}.
End Actions.

(** The three ways a run of [generate_image] ends. *)
Inductive generation_outcome (args : request) (w : world) : world -> Prop :=
| failed_before_store e :
    generation_outcome args w
      {| ui := with_status (lit "Error: " ++ e) (ui w);
         trace := trace w ++ [posted_request args; generation_error_dialog e] |}
| failed_after_store img e :
    generation_outcome args w
      {| ui := with_status (lit "Error: " ++ e)
                 (with_generated_image (Some img) (ui w));
         trace := trace w ++ [posted_request args; generation_error_dialog e] |}
| generated img resized :
    generation_outcome args w
      {| ui := with_status (lit "Image generated successfully.")
                 (with_canvas [image_item resized]
                    (with_photo_image (Some resized)
                       (with_generated_image (Some img) (ui w))));
         trace := trace w ++ [posted_request args] |}.

(** ** More inputs for the examples *)

(** The window after the user typed a prompt and a token, and letters into
    the width field. *)
Definition unreadable_width_world : world :=
  {| ui := with_form (lit "a cat") (lit " hf_typed ") DEFAULT_MODEL
             (inl (lit "expected floating-point number")) (inr 512) (inr 25)
             (fresh_app []);
     trace := [] |}.

(** The window with an image of 1024 by 512 in the slot. *)
Definition stored_world : world :=
  {| ui := with_generated_image (Some {| size := (1024, 512); pixels := [] |})
             (fresh_app (lit "a cat"));
     trace := [] |}.

(** Status 200 and a body that holds no payload: [{"status": "ok"}]. *)
Definition no_payload_response : response :=
  {| status_code := 200;
     content_type := Some (lit "application/json");
     content := [];
     json_result := Some (JDict [(lit "status", JStr (lit "ok"))]) |}.

(** ** Checks over the sides that fit the canvas *)

(** The quotient is the float [1.0] or above it. *)
Definition one_or_above (q : exn + pyfloat) : bool :=
  match q with
  | inr (S754_finite false m e) =>
      (Pos.eqb m 4503599627370496 && Z.eqb e (-52))
      || float_ltb float_one (S754_finite false m e)
  | _ => false
  end.

(** [int(n * 1.0)] is [n]. *)
Definition side_kept (n : Z) : bool :=
  match int_mul_float n float_one with
  | inr p => match int_of_float p with
             | inr z => z =? n
             | inl _ => false
             end
  | inl _ => false
  end.

(** The integers from 1 to [n]. *)
Definition sides_up_to (n : Z) : list Z := map Z.of_nat (seq 1 (Z.to_nat n)).

(** * Properties *)

(** ** Strings *)

Lemma contains_suffix (before x : pystr) : contains (before ++ x) x.
Proof. exists before, []. now rewrite app_nil_r. Qed.

Lemma contains_nil (msg : pystr) : contains msg [].
Proof. now exists [], msg. Qed.

Lemma find_app {A} (p : A -> bool) (a b : list A) :
  find p (a ++ b) = match find p a with Some x => Some x | None => find p b end.
Proof.
  induction a as [|x a IH]; simpl; [reflexivity|].
  destruct (p x); [reflexivity | exact IH].
Qed.

Lemma find_none_iff {A} (p : A -> bool) (l : list A) :
  find p l = None <-> Forall (fun x => p x = false) l.
Proof.
  induction l as [|x l IH]; simpl.
  - split; [constructor | reflexivity].
  - destruct (p x) eqn:E.
    + split; [discriminate | intros H; inversion H; congruence].
    + rewrite IH. split; [now constructor | intros H; now inversion H].
Qed.

Lemma find_first_split {A} (p : A -> bool) (l : list A) (x : A) :
  find p l = Some x ->
  exists before after,
    l = before ++ x :: after /\ Forall (fun y => p y = false) before /\ p x = true.
Proof.
  induction l as [|y l IH]; simpl; [discriminate|].
  destruct (p y) eqn:E.
  - intros [= ->]. exists [], l. repeat split; [constructor | exact E].
  - intros H. destruct (IH H) as (before & after & -> & Hb & Hx).
    exists (y :: before), after. repeat split; [now constructor | exact Hx].
Qed.

Lemma str_mem_In (c : char) (s : pystr) : str_mem c s = true <-> In c s.
Proof.
  unfold str_mem. rewrite existsb_exists. split.
  - intros (x & Hx & E). apply N.eqb_eq in E. now subst.
  - intros H. exists c. split; [exact H | apply N.eqb_refl].
Qed.

Lemma lstrip_all_space (s : pystr) : forallb isspace s = true -> lstrip s = [].
Proof.
  induction s as [|c s IH]; simpl; [reflexivity|].
  intros H. apply andb_prop in H as [Hc Hs]. rewrite Hc. auto.
Qed.

Lemma strip_all_space (s : pystr) : forallb isspace s = true -> strip s = [].
Proof. intros H. unfold strip. now rewrite (lstrip_all_space s H). Qed.

(** ** The search *)

Section SearchFacts.
Context {rt : Runtime}.

Lemma looks_like_base64_long (s : pystr) :
  looks_like_base64 s = true -> 200 < len s.
Proof.
  unfold looks_like_base64. intros H. apply andb_prop in H as [H _].
  now apply Z.ltb_lt.
Qed.

(** Line 168 in words: more than 200 characters, and each of the first 200
    is alphanumeric or one of [+/=], newline, carriage return. *)
Lemma looks_like_base64_iff (s : pystr) :
  looks_like_base64 s = true
  <-> 200 < len s
      /\ Forall (fun c => isalnum c = true \/ In c b64_symbols) (slice_to 200 s).
Proof.
  unfold looks_like_base64. rewrite andb_true_iff, Z.ltb_lt, forallb_forall, Forall_forall.
  split; intros [Hl Hc]; (split; [exact Hl|]); intros c Hin; specialize (Hc c Hin).
  - unfold b64_char in Hc. apply orb_prop in Hc as [Hc|Hc]; [now left|].
    right. now apply str_mem_In.
  - unfold b64_char. apply orb_true_iff. destruct Hc as [Hc|Hc]; [now left|].
    right. now apply str_mem_In.
Qed.

Lemma looks_like_base64_truthy (s : pystr) :
  looks_like_base64 s = true -> str_truthy s = true.
Proof.
  intros H. apply looks_like_base64_long in H.
  destruct s; [cbn in H; lia | reflexivity].
Qed.

(** Line 164: once a string is held, every later call returns at once. *)
Lemma search_keeps_found (obj : json) (found : option pystr) :
  found_truthy found = true -> search_for_base64 obj found = found.
Proof. intros H. destruct obj; simpl; now rewrite H. Qed.

Lemma fold_keeps_found {A} (f : A -> json) (l : list A) (found : option pystr) :
  found_truthy found = true ->
  fold_left (fun acc x => search_for_base64 (f x) acc) l found = found.
Proof.
  intros H. induction l as [|x l IH]; simpl; [reflexivity|].
  now rewrite (search_keeps_found _ _ H).
Qed.

Lemma find_candidate_truthy (l : list pystr) (s : pystr) :
  find looks_like_base64 l = Some s -> found_truthy (Some s) = true.
Proof.
  intros H. apply find_some in H as [_ H]. simpl.
  now apply looks_like_base64_truthy.
Qed.

Lemma fold_search_spec {A} (f : A -> json) (l : list A) :
  Forall (fun x => forall found, found_truthy found = false ->
            search_for_base64 (f x) found
            = keep_or (find looks_like_base64 (dfs_strings (f x))) found) l ->
  forall found, found_truthy found = false ->
    fold_left (fun acc x => search_for_base64 (f x) acc) l found
    = keep_or (find looks_like_base64 (flat_map (fun x => dfs_strings (f x)) l)) found.
Proof.
  induction 1 as [|x l Hx _ IH]; intros found Hf; simpl; [reflexivity|].
  rewrite find_app, (Hx found Hf).
  destruct (find looks_like_base64 (dfs_strings (f x))) as [s|] eqn:E; simpl.
  - apply fold_keeps_found. exact (find_candidate_truthy _ _ E).
  - now apply IH.
Qed.

(** The closure computes the first candidate of the depth-first traversal,
    unless it already holds one. *)
Lemma search_spec (obj : json) :
  forall found, found_truthy found = false ->
    search_for_base64 obj found = keep_or (first_candidate obj) found.
Proof.
  unfold first_candidate.
  induction obj as [| b | n | x | s | items IH | entries IH] using json_tree_ind;
    intros found Hf; simpl; rewrite Hf; try reflexivity.
  - destruct (looks_like_base64 s); reflexivity.
  - exact (fold_search_spec (fun v => v) items IH found Hf).
  - exact (fold_search_spec snd entries IH found Hf).
Qed.

Lemma search_first_candidate (obj : json) :
  search_for_base64 obj None = first_candidate obj.
Proof.
  rewrite (search_spec obj None eq_refl).
  now destruct (first_candidate obj).
Qed.

Lemma first_candidate_truthy (obj : json) (s : pystr) :
  first_candidate obj = Some s -> str_truthy s = true.
Proof. intros H. exact (find_candidate_truthy _ _ H). Qed.

Lemma no_candidate_iff (j : json) : no_candidate j <-> first_candidate j = None.
Proof. unfold no_candidate, first_candidate. symmetry. apply find_none_iff. Qed.

Lemma flat_map_no_candidate {A} (f : A -> json) (l : list A) :
  Forall (fun x => no_candidate (f x)) l ->
  find looks_like_base64 (flat_map (fun x => dfs_strings (f x)) l) = None.
Proof.
  induction 1 as [|x l Hx _ IH]; simpl; [reflexivity|].
  rewrite find_app. apply no_candidate_iff in Hx. unfold first_candidate in Hx.
  now rewrite Hx.
Qed.

Lemma flat_map_app_cons {A B} (f : A -> list B) (before : list A) (x : A) (after : list A) :
  flat_map f (before ++ x :: after) = flat_map f before ++ f x ++ flat_map f after.
Proof. rewrite flat_map_app. reflexivity. Qed.

(** A candidate nested under siblings that hold none before it is the
    first candidate. *)
Lemma nested_first_candidate (s : pystr) (d : nat) (j : json) :
  looks_like_base64 s = true -> nested_at s d j -> first_candidate j = Some s.
Proof.
  intros Hs. unfold first_candidate.
  induction 1 as [| d before v after Hb _ IH | d before k v after Hb _ IH]; simpl.
  - now rewrite Hs.
  - assert (E : find looks_like_base64 (flat_map dfs_strings before) = None)
      by exact (flat_map_no_candidate (fun v => v) before Hb).
    now rewrite flat_map_app_cons, find_app, E, find_app, IH.
  - assert (E : find looks_like_base64
                  (flat_map (fun kv => dfs_strings (snd kv)) before) = None)
      by exact (flat_map_no_candidate snd before Hb).
    rewrite (flat_map_app_cons (fun kv => dfs_strings (snd kv))), find_app, E.
    simpl. now rewrite find_app, IH.
Qed.

Lemma base64_alphabet_char (c : char) : base64_alphabet c = true -> b64_char c = true.
Proof.
  unfold base64_alphabet, b64_char, isalnum. intros H.
  destruct (ascii_isalnum c) eqn:Ea.
  - assert (Hlt : (c <? 128)%N = true).
    { unfold ascii_isalnum in Ea. apply N.ltb_lt.
      repeat (apply orb_prop in Ea as [Ea|Ea]);
        apply andb_prop in Ea as [_ Ea]; apply N.leb_le in Ea; lia. }
    now rewrite Hlt.
  - simpl in H. apply orb_true_iff. right. unfold str_mem, b64_symbols. simpl.
    repeat (apply orb_prop in H as [H|H]); try discriminate;
      apply N.eqb_eq in H; subst c; reflexivity.
Qed.

Lemma forallb_firstn {A} (p : A -> bool) (n : nat) (l : list A) :
  forallb p l = true -> forallb p (firstn n l) = true.
Proof.
  revert n. induction l as [|x l IH]; intros [|n]; simpl; auto.
  intros H. apply andb_prop in H as [Hx Hl]. now rewrite Hx, IH.
Qed.

(** A string of more than 200 characters of the base64 alphabet passes. *)
Lemma base64_text_is_candidate (s : pystr) :
  200 < len s -> forallb base64_alphabet s = true -> looks_like_base64 s = true.
Proof.
  intros Hl Ha. unfold looks_like_base64.
  apply andb_true_intro. split; [now apply Z.ltb_lt|].
  apply forallb_firstn. rewrite forallb_forall in *.
  intros c Hc. apply base64_alphabet_char. auto.
Qed.
End SearchFacts.

(** ** The decoder of the example runtime *)

Lemma sextets_round_trip_holds : sextets_round_trip = true.
Proof. vm_compute. reflexivity. Qed.

Lemma in_sextets (v : N) : (v < 64)%N -> In v sextets.
Proof.
  intro H. unfold sextets. apply in_map_iff. exists (N.to_nat v). split.
  - apply N2Nat.id.
  - apply in_seq. lia.
Qed.

Lemma quad_bytes_encode (v0 v1 v2 v3 : N) :
  (v0 < 64)%N -> (v1 < 64)%N -> (v2 < 64)%N -> (v3 < 64)%N ->
  N.shiftr (quad_byte0 v0 v1) 2 = v0
  /\ N.lor (N.shiftl (N.land (quad_byte0 v0 v1) 3) 4) (N.shiftr (quad_byte1 v1 v2) 4) = v1
  /\ N.lor (N.shiftl (N.land (quad_byte1 v1 v2) 15) 2) (N.shiftr (quad_byte2 v2 v3) 6) = v2
  /\ N.land (quad_byte2 v2 v3) 63 = v3.
Proof.
  intros H0 H1 H2 H3.
  pose proof sextets_round_trip_holds as Hc. unfold sextets_round_trip in Hc.
  rewrite forallb_forall in Hc.
  assert (Hq : forall a b c, (a < 64)%N -> (b < 64)%N -> (c < 64)%N ->
     N.shiftr (quad_byte0 a b) 2 = a
     /\ N.lor (N.shiftl (N.land (quad_byte0 a b) 3) 4) (N.shiftr (quad_byte1 b c) 4) = b
     /\ N.lor (N.shiftl (N.land (quad_byte1 a b) 15) 2) (N.shiftr (quad_byte2 b c) 6) = b
     /\ N.land (quad_byte2 b c) 63 = c).
  { intros a b c Ha Hb Hcc.
    pose proof (Hc a (in_sextets a Ha)) as Hc1. rewrite forallb_forall in Hc1.
    pose proof (Hc1 b (in_sextets b Hb)) as Hc2. rewrite forallb_forall in Hc2.
    pose proof (Hc2 c (in_sextets c Hcc)) as Hc3.
    apply andb_prop in Hc3. destruct Hc3 as [Hc3 E4].
    apply andb_prop in Hc3. destruct Hc3 as [Hc3 E3].
    apply andb_prop in Hc3. destruct Hc3 as [E1 E2].
    apply N.eqb_eq in E1, E2, E3, E4. auto. }
  destruct (Hq v0 v1 v2 H0 H1 H2) as (E1 & E2 & _ & _).
  destruct (Hq v1 v2 v3 H1 H2 H3) as (_ & _ & E3 & E4).
  auto.
Qed.

(** A character with a value is ASCII, is not the padding, and is the
    character the encoder writes for that value. *)
Lemma b64_value_char (c v : N) :
  b64_value c = Some v ->
  (v < 64)%N /\ b64_char_of v = c /\ (c =? 61)%N = false /\ (c <? 128)%N = true.
Proof.
  unfold b64_value, b64_char_of. intro H.
  destruct ((65 <=? c) && (c <=? 90))%N eqn:E1.
  { apply andb_prop in E1. destruct E1 as [Ea Eb].
    apply N.leb_le in Ea, Eb. injection H as <-.
    assert (Hlt : (c - 65 <? 26)%N = true) by (apply N.ltb_lt; lia).
    rewrite Hlt. repeat split; try lia.
    - apply N.eqb_neq; lia.
    - apply N.ltb_lt; lia. }
  destruct ((97 <=? c) && (c <=? 122))%N eqn:E2.
  { apply andb_prop in E2. destruct E2 as [Ea Eb].
    apply N.leb_le in Ea, Eb. injection H as <-.
    assert (Hge : (c - 71 <? 26)%N = false) by (apply N.ltb_ge; lia).
    assert (Hlt : (c - 71 <? 52)%N = true) by (apply N.ltb_lt; lia).
    rewrite Hge, Hlt. repeat split; try lia.
    - apply N.eqb_neq; lia.
    - apply N.ltb_lt; lia. }
  destruct ((48 <=? c) && (c <=? 57))%N eqn:E3.
  { apply andb_prop in E3. destruct E3 as [Ea Eb].
    apply N.leb_le in Ea, Eb. injection H as <-.
    assert (Hge : (c + 4 <? 26)%N = false) by (apply N.ltb_ge; lia).
    assert (Hge2 : (c + 4 <? 52)%N = false) by (apply N.ltb_ge; lia).
    assert (Hlt : (c + 4 <? 62)%N = true) by (apply N.ltb_lt; lia).
    rewrite Hge, Hge2, Hlt. repeat split; try lia.
    - apply N.eqb_neq; lia.
    - apply N.ltb_lt; lia. }
  destruct (c =? 43)%N eqn:E4.
  { apply N.eqb_eq in E4. subst c. injection H as <-. repeat split; reflexivity. }
  destruct (c =? 47)%N eqn:E5.
  { apply N.eqb_eq in E5. subst c. injection H as <-. repeat split; reflexivity. }
  discriminate.
Qed.

Lemma base64_data_char_value (c : char) :
  base64_data_char c = true -> exists v, b64_value c = Some v.
Proof.
  unfold base64_data_char. destruct (b64_value c) as [v|]; [eauto | discriminate].
Qed.

Lemma base64_data_char_alphabet (c : char) :
  base64_data_char c = true -> base64_alphabet c = true.
Proof.
  unfold base64_data_char, b64_value, base64_alphabet, ascii_isalnum.
  destruct ((65 <=? c) && (c <=? 90))%N; [intros _; now rewrite !orb_true_r|].
  destruct ((97 <=? c) && (c <=? 122))%N; [intros _; now rewrite !orb_true_r|].
  destruct ((48 <=? c) && (c <=? 57))%N; [intros _; reflexivity|].
  destruct (c =? 43)%N; [intros _; reflexivity|].
  destruct (c =? 47)%N; [intros _; reflexivity|].
  discriminate.
Qed.

Lemma to_N_byte_of_N (n : N) : Byte.to_N (byte_of_N n) = (n mod 256)%N.
Proof.
  unfold byte_of_N.
  destruct (Byte.of_N (n mod 256)) as [b|] eqn:E.
  - apply Byte.to_of_N. exact E.
  - apply Byte.of_N_None_iff in E.
    pose proof (N.mod_upper_bound n 256). lia.
Qed.

(** Four data characters at the start of a quad give three bytes and leave
    the decoder at the start of the next quad. *)
Lemma a2b_base64_quad (c0 c1 c2 c3 : char) (v0 v1 v2 v3 : N) (rest : pystr)
    (leftchar : N) (pads : nat) (out : list byte) :
  b64_value c0 = Some v0 -> b64_value c1 = Some v1 ->
  b64_value c2 = Some v2 -> b64_value c3 = Some v3 ->
  a2b_base64 (c0 :: c1 :: c2 :: c3 :: rest) 0 leftchar pads out
  = a2b_base64 rest 0 0 0
      (byte_of_N (N.lor (N.shiftl (N.land v2 3) 6) v3)
         :: byte_of_N (N.lor (N.shiftl (N.land v1 15) 4) (N.shiftr v2 2))
         :: byte_of_N (N.lor (N.shiftl v0 2) (N.shiftr v1 4)) :: out).
Proof.
  intros H0 H1 H2 H3.
  destruct (b64_value_char _ _ H0) as (_ & _ & N0 & _).
  destruct (b64_value_char _ _ H1) as (_ & _ & N1 & _).
  destruct (b64_value_char _ _ H2) as (_ & _ & N2 & _).
  destruct (b64_value_char _ _ H3) as (_ & _ & N3 & _).
  cbn [a2b_base64]. rewrite N0, H0, N1, H1, N2, H2, N3, H3. reflexivity.
Qed.

(** On whole quads of data characters the decoder succeeds, and what it
    returns encodes back to the text. *)
Lemma a2b_base64_data (n : nat) :
  forall (s : pystr) (out : list byte),
    List.length s = (4 * n)%nat -> forallb base64_data_char s = true ->
    exists b, a2b_base64 s 0 0 0 out = inr (rev out ++ b)
              /\ b64encode b = s /\ List.length b = (3 * n)%nat.
Proof.
  induction n as [|n IH]; intros s out Hlen Hs.
  - destruct s; [|discriminate]. exists []. cbn. rewrite app_nil_r. auto.
  - destruct s as [|c0 [|c1 [|c2 [|c3 rest]]]]; cbn in Hlen; try lia.
    cbn [forallb] in Hs.
    apply andb_prop in Hs. destruct Hs as [D0 Hs].
    apply andb_prop in Hs. destruct Hs as [D1 Hs].
    apply andb_prop in Hs. destruct Hs as [D2 Hs].
    apply andb_prop in Hs. destruct Hs as [D3 Hs].
    destruct (base64_data_char_value _ D0) as [v0 H0].
    destruct (base64_data_char_value _ D1) as [v1 H1].
    destruct (base64_data_char_value _ D2) as [v2 H2].
    destruct (base64_data_char_value _ D3) as [v3 H3].
    rewrite (a2b_base64_quad _ _ _ _ _ _ _ _ _ _ _ _ H0 H1 H2 H3).
    destruct (b64_value_char _ _ H0) as (L0 & C0 & _).
    destruct (b64_value_char _ _ H1) as (L1 & C1 & _).
    destruct (b64_value_char _ _ H2) as (L2 & C2 & _).
    destruct (b64_value_char _ _ H3) as (L3 & C3 & _).
    destruct (IH rest
                (byte_of_N (N.lor (N.shiftl (N.land v2 3) 6) v3)
                   :: byte_of_N (N.lor (N.shiftl (N.land v1 15) 4) (N.shiftr v2 2))
                   :: byte_of_N (N.lor (N.shiftl v0 2) (N.shiftr v1 4)) :: out))
      as (b & Hrun & Henc & Hb); [lia | exact Hs |].
    exists (byte_of_N (N.lor (N.shiftl v0 2) (N.shiftr v1 4))
              :: byte_of_N (N.lor (N.shiftl (N.land v1 15) 4) (N.shiftr v2 2))
              :: byte_of_N (N.lor (N.shiftl (N.land v2 3) 6) v3) :: b).
    split; [|split].
    + rewrite Hrun. f_equal. cbn [rev]. rewrite <- !app_assoc. reflexivity.
    + cbn [b64encode]. rewrite !to_N_byte_of_N.
      destruct (quad_bytes_encode v0 v1 v2 v3 L0 L1 L2 L3) as (E0 & E1 & E2 & E3).
      unfold quad_byte0, quad_byte1, quad_byte2 in E0, E1, E2, E3.
      rewrite E0, E1, E2, E3, C0, C1, C2, C3, Henc. reflexivity.
    + cbn [List.length]. lia.
Qed.

(** [base64.b64decode] of 300 data characters: 225 bytes, whose encoding is
    the text. *)
Lemma b64decode_ascii_data (s : pystr) :
  len s = 300 -> forallb base64_data_char s = true ->
  exists b, b64decode_ascii s = inr b /\ b64encode b = s /\ len b = 225.
Proof.
  intros Hl Hs. unfold b64decode_ascii.
  assert (Ha : forallb (fun c => (c <? 128)%N) s = true).
  { rewrite forallb_forall in *. intros c Hc.
    destruct (base64_data_char_value c (Hs c Hc)) as [v Hv].
    now destruct (b64_value_char c v Hv) as (_ & _ & _ & H). }
  rewrite Ha. unfold len in Hl.
  destruct (a2b_base64_data 75 s [] ltac:(lia) Hs) as (b & Hrun & Henc & Hb).
  exists b. split; [exact Hrun|]. split; [exact Henc|]. unfold len. lia.
Qed.

(** ** The response interpreter *)

Section InterpreterFacts.
Context {rt : Runtime}.

Lemma parsed_some (resp : response) (j : json) :
  json_result resp = Some j -> parsed resp = j.
Proof. unfold parsed. now intros ->. Qed.

Lemma interpret_json_path (resp : response) :
  is_image_response resp = false ->
  has_error (parsed resp) = false ->
  interpret_response resp = after_search resp (parsed resp).
Proof.
  intros Hi He. unfold interpret_response, after_search. rewrite Hi, He.
  rewrite search_first_candidate.
  destruct (first_candidate (parsed resp)) as [s|] eqn:E.
  - rewrite (first_candidate_truthy _ _ E).
    destruct (parsed resp); try reflexivity. discriminate E.
  - destruct (parsed resp); reflexivity.
Qed.

Lemma interpret_first_candidate (resp : response) (s : pystr) :
  is_image_response resp = false ->
  has_error (parsed resp) = false ->
  first_candidate (parsed resp) = Some s ->
  interpret_response resp = decode_found s.
Proof.
  intros Hi He Hs. rewrite (interpret_json_path resp Hi He).
  unfold after_search. now rewrite search_first_candidate, Hs.
Qed.

(** What [base64.b64decode] returns on the first candidate is the result:
    its bytes as the image, or its exception as the failure. *)
Lemma interpret_decodes_candidate (resp : response) (s : pystr) :
  is_image_response resp = false ->
  has_error (parsed resp) = false ->
  first_candidate (parsed resp) = Some s ->
  (forall image_bytes, b64decode s = inr image_bytes ->
                       interpret_response resp = Image image_bytes)
  /\ (forall e, b64decode s = inl e -> interpret_response resp = Failure e).
Proof.
  intros Hi He Hs. rewrite (interpret_first_candidate resp s Hi He Hs).
  unfold decode_found. split.
  - intros image_bytes ->. reflexivity.
  - intros e ->. reflexivity.
Qed.

(** C1.  On the JSON path, with no truthy top-level ["error"], the string
    handed to [base64.b64decode] is the first string of the depth-first
    traversal that is longer than 200 characters and whose first 200
    characters are alphanumeric or among [+/=], newline, carriage return, and
    the result is what the decoder returns on it: its bytes as the image
    bytes, or its exception as the failure.  In particular a string of 300
    of the 64 characters of the base64 alphabet, nested at any depth and at
    any position among its siblings, the strings met before it in the
    traversal not passing the heuristic, is the one located; where
    [base64.b64decode] is the lenient decoder of CPython, the result is then
    image bytes, namely the 225 bytes whose base64 encoding is that
    string. *)
Theorem json_path_decodes_first_candidate (resp : response) (j : json) :
  is_image_response resp = false ->
  json_result resp = Some j ->
  has_error j = false ->
  (forall s, first_candidate j = Some s ->
             (exists before after,
                 dfs_strings j = before ++ s :: after
                 /\ Forall (fun x => looks_like_base64 x = false) before)
             /\ 200 < len s
             /\ Forall (fun c => isalnum c = true \/ In c b64_symbols) (slice_to 200 s)
             /\ (forall image_bytes, b64decode s = inr image_bytes ->
                                     interpret_response resp = Image image_bytes)
             /\ (forall e, b64decode s = inl e ->
                           interpret_response resp = Failure e))
  /\ (forall s d, len s = 300 -> forallb base64_data_char s = true ->
                  nested_at s d j ->
                  search_for_base64 j None = Some s
                  /\ (forall image_bytes, b64decode s = inr image_bytes ->
                                          interpret_response resp = Image image_bytes)
                  /\ (forall e, b64decode s = inl e ->
                                interpret_response resp = Failure e)
                  /\ (b64decode s = b64decode_ascii s ->
                      exists image_bytes,
                        interpret_response resp = Image image_bytes
                        /\ b64encode image_bytes = s
                        /\ len image_bytes = 225)).
Proof.
  intros Hi Hj He. apply parsed_some in Hj. subst j. split.
  - intros s Hs.
    destruct (find_first_split _ _ _ Hs) as (before & after & Hd & Hb & Hc).
    apply looks_like_base64_iff in Hc as [Hl Hc].
    split; [now exists before, after|]. split; [exact Hl|]. split; [exact Hc|].
    now apply interpret_decodes_candidate.
  - intros s d Hl Ha Hn.
    assert (Hc : looks_like_base64 s = true).
    { apply base64_text_is_candidate; [lia|].
      rewrite forallb_forall in *. intros c Hin.
      apply base64_data_char_alphabet. auto. }
    pose proof (nested_first_candidate s d _ Hc Hn) as Hf.
    destruct (interpret_decodes_candidate resp s Hi He Hf) as [Hok Hfail].
    split; [now rewrite search_first_candidate|].
    split; [exact Hok|]. split; [exact Hfail|].
    intros Hrt. destruct (b64decode_ascii_data s Hl Ha) as (b & Hb & Henc & Hlen).
    exists b. split; [|split; [exact Henc | exact Hlen]].
    apply Hok. now rewrite Hrt.
Qed.

(** C3.  Status 200 with a content type that starts with [image/]: the
    result is the body, byte for byte, whatever [resp.json()] would say. *)
Theorem image_response_returns_body (resp : response) :
  status_code resp = 200 ->
  startswith (lit "image/") (ctype_of resp) = true ->
  interpret_response resp = Image (content resp).
Proof.
  intros Hs Hc. unfold interpret_response, is_image_response.
  now rewrite Hs, Hc.
Qed.

(** C4.  With two strings that pass the heuristic, the one met first in
    the traversal (object values in iteration order, list elements in index
    order) is the one chosen, and the choice depends on nothing but that
    order. *)
Theorem first_of_two_candidates_wins (resp : response) (j : json)
    (before between after : list pystr) (s1 s2 : pystr) :
  is_image_response resp = false ->
  json_result resp = Some j ->
  has_error j = false ->
  dfs_strings j = before ++ s1 :: between ++ s2 :: after ->
  Forall (fun s => looks_like_base64 s = false) before ->
  looks_like_base64 s1 = true ->
  looks_like_base64 s2 = true ->
  search_for_base64 j None = Some s1
  /\ interpret_response resp = decode_found s1
  /\ (forall j', dfs_strings j' = dfs_strings j ->
                 search_for_base64 j' None = Some s1).
Proof.
  intros Hi Hj He Hd Hb H1 _. apply parsed_some in Hj. subst j.
  assert (Hf : forall j', dfs_strings j' = dfs_strings (parsed resp) ->
                          first_candidate j' = Some s1).
  { intros j' E. unfold first_candidate. rewrite E, Hd, find_app.
    apply find_none_iff in Hb. rewrite Hb. simpl. now rewrite H1. }
  split; [|split].
  - rewrite search_first_candidate. now apply Hf.
  - apply interpret_first_candidate; auto.
  - intros j' E. rewrite search_first_candidate. now apply Hf.
Qed.

Lemma has_error_truthy (j : json) : has_error j = truthy (error_value j).
Proof. destruct j; reflexivity. Qed.

(** C5.  An absent or falsy top-level ["error"] does not stop the search:
    the result is what the search yields.  The heuristic wants more than
    200 characters and reads only the first 200. *)
Theorem falsy_error_goes_on_to_search :
  (forall resp j,
      is_image_response resp = false ->
      json_result resp = Some j ->
      truthy (error_value j) = false ->
      interpret_response resp = after_search resp j)
  /\ (truthy JNull = false /\ truthy (JStr []) = false
      /\ truthy (JBool false) = false /\ truthy (JInt 0) = false)
  /\ (forall s, len s = 200 -> looks_like_base64 s = false)
  /\ (forall s t, 200 < len s -> 200 < len t ->
                  slice_to 200 s = slice_to 200 t ->
                  looks_like_base64 s = looks_like_base64 t).
Proof.
  split; [|split; [|split]].
  - intros resp j Hi Hj He. apply parsed_some in Hj. subst j.
    apply interpret_json_path; [exact Hi|]. now rewrite has_error_truthy.
  - repeat split.
  - intros s Hl. unfold looks_like_base64. rewrite Hl. reflexivity.
  - intros s t Hs Ht E. unfold looks_like_base64. rewrite E.
    apply Z.ltb_lt in Hs, Ht. now rewrite Hs, Ht.
Qed.

(** C6.  Not taken as an image and [resp.json()] raises: the failure
    message ends with the content type. *)
Theorem not_json_mentions_content_type (resp : response) :
  is_image_response resp = false ->
  json_result resp = None ->
  interpret_response resp = Failure (not_json_message resp)
  /\ contains (not_json_message resp) (ctype_of resp).
Proof.
  intros Hi Hj. split.
  - unfold interpret_response, parsed. now rewrite Hi, Hj.
  - unfold not_json_message. rewrite !app_assoc. apply contains_suffix.
Qed.

(** C2, as the code has it.  Not taken as an image and the parsed body is
    an object whose ["error"] is truthy: the result is the failure
    ["Hugging Face API error: <error value>"], whatever the status code.
    For the body [{"error": x}] the failure message contains [x]. *)
Theorem truthy_error_is_reported (resp : response) (j : json) :
  is_image_response resp = false ->
  json_result resp = Some j ->
  (has_error j = true ->
     interpret_response resp
     = Failure (lit "Hugging Face API error: " ++ py_str (error_value j))
     /\ contains (lit "Hugging Face API error: " ++ py_str (error_value j))
                 (py_str (error_value j)))
  /\ (forall x, j = JDict [(lit "error", JStr x)] ->
                exists m, interpret_response resp = Failure m /\ contains m x).
Proof.
  intros Hi Hj. apply parsed_some in Hj. split.
  - intros He. split; [|apply contains_suffix].
    unfold interpret_response. now rewrite Hi, Hj, He.
  - intros x ->. destruct x as [|c x].
    + eexists. split; [|apply contains_nil].
      unfold interpret_response. rewrite Hi, Hj. reflexivity.
    + exists (lit "Hugging Face API error: " ++ c :: x). split.
      * unfold interpret_response. rewrite Hi, Hj. reflexivity.
      * apply contains_suffix.
Qed.
End InterpreterFacts.

(** ** The handlers *)

(** Runs the monad of the handlers one step further. *)
Ltac run_handler :=
  cbv [try_except bind set_status modify post emit call raise ret get_app];
  cbn [ui trace fst snd].

Section HandlerFacts.
Context {rt : Runtime}.

Lemma world_eta (w : world) : {| ui := ui w; trace := trace w |} = w.
Proof. now destruct w. Qed.

Lemma handler_on_blank_prompt (getenv_token : option pystr) (w : world) :
  forallb isspace (prompt_text (ui w)) = true ->
  on_generate_clicked getenv_token w
  = (inr tt, {| ui := ui w; trace := trace w ++ [prompt_missing_dialog] |}).
Proof.
  intros H. unfold on_generate_clicked, bind, get_app.
  now rewrite (strip_all_space _ H).
Qed.

Lemma handler_on_blank_token (getenv_token : option pystr) (w : world) :
  str_truthy (strip (prompt_text (ui w))) = true ->
  forallb isspace (api_token_var (ui w)) = true ->
  found_truthy getenv_token = false ->
  on_generate_clicked getenv_token w
  = (inr tt, {| ui := ui w; trace := trace w ++ [token_missing_dialog] |}).
Proof.
  intros Hp Ht He. unfold on_generate_clicked, bind, get_app.
  rewrite Hp, (strip_all_space _ Ht). unfold str_or.
  cbn [str_truthy negb]. now rewrite He.
Qed.

(** C7.  A prompt that is empty or all whitespace, and likewise a token
    field that is empty with no token in the environment: the click ends in
    the one warning dialog, the widget state is untouched, no thread is
    started and no request is posted. *)
Theorem blank_input_issues_no_request (getenv_token : option pystr)
    (net : exn + response) (w : world) :
  forallb isspace (prompt_text (ui w)) = true
  \/ (forallb isspace (api_token_var (ui w)) = true
      /\ found_truthy getenv_token = false) ->
  exists dialog,
    (dialog = prompt_missing_dialog \/ dialog = token_missing_dialog)
    /\ dispatch getenv_token net w
       = (inr tt, {| ui := ui w; trace := trace w ++ [dialog] |})
    /\ existsb is_thread_start (trace (snd (dispatch getenv_token net w))) 
       = existsb is_thread_start (trace w)
    /\ existsb is_network_call (trace (snd (dispatch getenv_token net w)))
       = existsb is_network_call (trace w).
Proof.
  intros H.
  assert (Hd : exists dialog,
             (dialog = prompt_missing_dialog \/ dialog = token_missing_dialog)
             /\ on_generate_clicked getenv_token {| ui := ui w; trace := [] |}
                = (inr tt, {| ui := ui w; trace := [dialog] |})).
  { destruct (forallb isspace (prompt_text (ui w))) eqn:Ep.
    - exists prompt_missing_dialog. split; [now left|].
      now rewrite handler_on_blank_prompt.
    - destruct H as [H | [Ht He]]; [discriminate|].
      destruct (str_truthy (strip (prompt_text (ui w)))) eqn:Es.
      + exists token_missing_dialog. split; [now right|].
        now rewrite handler_on_blank_token.
      + exists prompt_missing_dialog. split; [now left|].
        unfold on_generate_clicked, bind, get_app. simpl. now rewrite Es. }
  destruct Hd as (dialog & Hk & Hd). exists dialog. split; [exact Hk|].
  assert (E : dispatch getenv_token net w
              = (inr tt, {| ui := ui w; trace := trace w ++ [dialog] |})).
  { unfold dispatch. rewrite Hd. simpl.
    destruct Hk as [-> | ->]; reflexivity. }
  rewrite E. simpl. rewrite !existsb_app.
  destruct Hk as [-> | ->]; simpl; rewrite !orb_false_r; auto.
Qed.

Lemma save_without_image (fs : option exn) (w : world) :
  generated_image (ui w) = None ->
  save_image fs w = (inr tt, {| ui := ui w; trace := trace w ++ [no_image_dialog] |}).
Proof.
  intros H. unfold save_image, bind, get_app. now rewrite H.
Qed.

Lemma save_many_without_image (answers : list (option exn)) :
  forall w, generated_image (ui w) = None ->
    save_many answers w
    = (inr tt, {| ui := ui w;
                  trace := trace w ++ repeat no_image_dialog (List.length answers) |}).
Proof.
  induction answers as [|fs rest IH]; intros w H; simpl.
  - unfold ret. now rewrite app_nil_r, world_eta.
  - unfold bind. rewrite (save_without_image fs w H).
    rewrite IH by exact H. simpl. now rewrite <- app_assoc.
Qed.

(** C9.  "Clear Image" leaves the image slot empty; every "Save Image"
    after it shows the "No image" dialog and writes no file. *)
Theorem save_after_clear_reports_no_image (w : world) (answers : list (option exn)) :
  let cleared := snd (clear_image w) in
  generated_image (ui cleared) = None
  /\ trace cleared = trace w
  /\ save_many answers cleared
     = (inr tt, {| ui := ui cleared;
                   trace := trace w ++ repeat no_image_dialog (List.length answers) |})
  /\ existsb is_file_write (trace (snd (save_many answers cleared)))
     = existsb is_file_write (trace w).
Proof.
  cbv zeta. split; [reflexivity|]. split; [reflexivity|].
  assert (E : save_many answers (snd (clear_image w))
              = (inr tt, {| ui := ui (snd (clear_image w));
                            trace := trace w ++ repeat no_image_dialog (List.length answers) |})).
  { now rewrite save_many_without_image. }
  split; [exact E|]. rewrite E. simpl. rewrite existsb_app.
  assert (R : forall n, existsb is_file_write (repeat no_image_dialog n) = false)
    by (induction n; simpl; auto).
  rewrite R. apply orb_false_r.
Qed.

Lemma display_keeps_slot (img : pil_image) (w : world) :
  generated_image (ui (snd (display_image img w))) = generated_image (ui w).
Proof.
  unfold display_image, show_resized. destruct (size img) as [iw ih].
  unfold bind, call.
  destruct (scaled_size iw ih) as [e|new_size]; [reflexivity|]. simpl.
  destruct (Image_resize img new_size) as [e|resized]; reflexivity.
Qed.

(** Where a run of [generate_image] stops before line 187. *)
Lemma failure_path_cases (net : exn + response) :
  failure_path net ->
  (exists e, net = inl e)
  \/ (exists resp m, net = inr resp /\ interpret_response resp = Failure m)
  \/ (exists resp b e, net = inr resp /\ interpret_response resp = Image b
                       /\ Image_open b = inl e).
Proof.
  intros [e | resp Hi He | resp Hi He Hs | resp found e Hi He Hn Hs Hd
          | resp b e Hb Ho].
  - left. now exists e.
  - right. left. exists resp. eexists. split; [reflexivity|].
    unfold interpret_response. now rewrite Hi, He.
  - right. left. exists resp. eexists. split; [reflexivity|].
    rewrite (interpret_json_path resp Hi He). unfold after_search.
    destruct Hs as [Hs | Hs].
    + now rewrite Hs.
    + rewrite Hs. reflexivity.
  - right. left. exists resp, e. split; [reflexivity|].
    rewrite (interpret_json_path resp Hi He). unfold after_search.
    rewrite Hs. unfold decode_found. now rewrite Hd.
  - right. right. now exists resp, b, e.
Qed.

Lemma generate_on_transport_error (e : exn) (args : request) (w : world) :
  generated_image (ui (snd (generate_image (inl e) args w))) = generated_image (ui w).
Proof. reflexivity. Qed.

Lemma generate_on_failure (resp : response) (m : exn) (args : request) (w : world) :
  interpret_response resp = Failure m ->
  generated_image (ui (snd (generate_image (inr resp) args w))) = generated_image (ui w).
Proof.
  intros H. unfold generate_image, try_except, bind, post, call. simpl.
  now rewrite H.
Qed.

Lemma generate_on_undecodable (resp : response) (b : bytes) (e : exn)
    (args : request) (w : world) :
  interpret_response resp = Image b ->
  Image_open b = inl e ->
  generated_image (ui (snd (generate_image (inr resp) args w))) = generated_image (ui w).
Proof.
  intros H Ho. unfold generate_image, try_except, bind, post, call. simpl.
  rewrite H. simpl. now rewrite Ho.
Qed.

Lemma generate_on_decoded (resp : response) (b : bytes) (img : pil_image)
    (args : request) (w : world) :
  interpret_response resp = Image b ->
  Image_open b = inr img ->
  generated_image (ui (snd (generate_image (inr resp) args w))) = Some img.
Proof.
  intros H Ho. unfold generate_image, try_except, bind, post, call. simpl.
  rewrite H. simpl. rewrite Ho. simpl.
  match goal with
  | |- context [display_image img ?w0] =>
      pose proof (display_keeps_slot img w0) as Hk;
      destruct (display_image img w0) as [[e|[]] w1]; simpl in Hk |- *;
      exact Hk
  end.
Qed.

Lemma display_image_run (pil_img : pil_image) (w : world) :
  (exists e, display_image pil_img w = (inl e, w))
  \/ (exists new_size resized,
        scaled_size (fst (size pil_img)) (snd (size pil_img)) = inr new_size
        /\ Image_resize pil_img new_size = inr resized
        /\ display_image pil_img w
           = (inr tt, {| ui := with_canvas [image_item resized]
                                 (with_photo_image (Some resized) (ui w));
                         trace := trace w |})).
Proof.
  unfold display_image, show_resized. destruct (size pil_img) as [iw ih]. simpl fst. simpl snd.
  unfold bind, call.
  destruct (scaled_size iw ih) as [e|new_size]; [left; now exists e|].
  simpl. destruct (Image_resize pil_img new_size) as [e|resized] eqn:Er.
  - left. now exists e.
  - right. exists new_size, resized. repeat split. exact Er.
Qed.

(** An interpretation that fails is one of the failures the taxonomy names. *)
Lemma failed_interpretation_path (resp : response) (m : exn) :
  interpret_response resp = Failure m -> failure_path (inr resp).
Proof.
  intros H.
  destruct (is_image_response resp) eqn:Hi.
  { unfold interpret_response in H. rewrite Hi in H. discriminate. }
  destruct (has_error (parsed resp)) eqn:He; [now apply api_error|].
  rewrite (interpret_json_path resp Hi He) in H. unfold after_search in H.
  destruct (search_for_base64 (parsed resp) None) as [found|] eqn:Hs.
  - unfold decode_found in H. destruct (b64decode found) as [e|b] eqn:Hd; [|discriminate].
    apply (base64_decode_error resp found e); auto.
    intros Hn. rewrite Hn in Hs. discriminate.
  - apply response_shape_error; auto.
Qed.

(** A run on a response that decodes, when [display_image] raises. *)
Lemma generate_on_display_error (resp : response) (b : bytes) (img : pil_image)
    (args : request) (w : world) :
  interpret_response resp = Image b ->
  Image_open b = inr img ->
  (forall new_size resized,
      scaled_size (fst (size img)) (snd (size img)) = inr new_size ->
      Image_resize img new_size <> inr resized) ->
  exists e,
    generate_image (inr resp) args w
    = (inr tt,
       {| ui := with_status (lit "Error: " ++ e)
                  (with_generated_image (Some img) (ui w));
          trace := trace w ++ [posted_request args; generation_error_dialog e] |}).
Proof.
  intros Hi Ho Hd. unfold generate_image. fold (posted_request args).
  run_handler. rewrite Hi. run_handler. rewrite Ho. run_handler.
  match goal with
  | |- context [display_image img ?w0] =>
      destruct (display_image_run img w0)
        as [[e He] | (new_size & resized & Hs & Hr & _)]
  end.
  - exists e. rewrite He. run_handler. now rewrite <- app_assoc.
  - now elim (Hd new_size resized Hs).
Qed.

(** C10, as the code has it.  A run of [generate_image] fails on one of the
    paths that raise before the assignment of line 187 (transport error, API
    error, response-shape error, base64 or image decode error), or else the
    new bytes decoded.  On the former the image slot is what it was.  The
    slot changes only when the new bytes decoded, and then to the decoded
    image: also when [display_image] raises afterwards, which is reported
    like every other failure, with the new image in the slot and the photo
    image and canvas left as they were. *)
Theorem failed_generation_keeps_image (net : exn + response) (args : request)
    (w : world) :
  (failure_path net ->
     generated_image (ui (snd (generate_image net args w))) = generated_image (ui w))
  /\ (generated_image (ui (snd (generate_image net args w))) <> generated_image (ui w) ->
        exists resp b img,
          net = inr resp /\ interpret_response resp = Image b
          /\ Image_open b = inr img
          /\ generated_image (ui (snd (generate_image net args w))) = Some img)
  /\ (failure_path net
      \/ exists resp b img,
           net = inr resp /\ interpret_response resp = Image b
           /\ Image_open b = inr img)
  /\ (forall resp b img,
        net = inr resp -> interpret_response resp = Image b ->
        Image_open b = inr img ->
        (forall new_size resized,
            scaled_size (fst (size img)) (snd (size img)) = inr new_size ->
            Image_resize img new_size <> inr resized) ->
        exists e,
          generate_image net args w
          = (inr tt,
             {| ui := with_status (lit "Error: " ++ e)
                        (with_generated_image (Some img) (ui w));
                trace := trace w
                         ++ [posted_request args; generation_error_dialog e] |})).
Proof.
  split; [|split; [|split]].
  - intros H. apply failure_path_cases in H
      as [[e ->] | [(resp & m & -> & Hm) | (resp & b & e & -> & Hb & Ho)]].
    + apply generate_on_transport_error.
    + now apply generate_on_failure with m.
    + now apply generate_on_undecodable with b e.
  - intros Hne. destruct net as [e|resp].
    + now rewrite generate_on_transport_error in Hne.
    + destruct (interpret_response resp) as [b|m] eqn:Hi.
      * destruct (Image_open b) as [e|img] eqn:Ho.
        -- now rewrite (generate_on_undecodable resp b e args w Hi Ho) in Hne.
        -- exists resp, b, img. repeat split; auto.
           now apply generate_on_decoded with b.
      * now rewrite (generate_on_failure resp m args w Hi) in Hne.
  - destruct net as [e|resp]; [left; apply transport_error|].
    destruct (interpret_response resp) as [b|m] eqn:Hi.
    + destruct (Image_open b) as [e|img] eqn:Ho.
      * left. now apply (image_decode_error resp b e).
      * right. now exists resp, b, img.
    + left. now apply failed_interpretation_path with m.
  - intros resp b img -> Hi Ho Hd.
    now apply generate_on_display_error with b.
Qed.
End HandlerFacts.

(** ** The arithmetic of the renderer *)

(** *** Digits and shifts *)

Lemma digits2_size (p : positive) : digits2_pos p = Pos.size p.
Proof. induction p; simpl; congruence. Qed.

Lemma digits2_bounds (p : positive) :
  2 ^ (Zpos (digits2_pos p) - 1) <= Zpos p < 2 ^ Zpos (digits2_pos p).
Proof.
  rewrite digits2_size. split.
  - pose proof (Pos.size_le p) as H.
    assert (H' : 2 ^ Zpos (Pos.size p) <= 2 * Zpos p).
    { rewrite <- Pos2Z.inj_pow. change (2 * Zpos p) with (Zpos p~0). now apply Pos2Z.pos_le_pos. }
    replace (Zpos (Pos.size p)) with (Z.succ (Zpos (Pos.size p) - 1)) in H' by lia.
    rewrite Z.pow_succ_r in H' by lia. lia.
  - pose proof (Pos.size_gt p) as H. rewrite <- Pos2Z.inj_pow. now apply Pos2Z.pos_lt_pos.
Qed.

Lemma digits2_unique (p : positive) (d : Z) :
  2 ^ (d - 1) <= Zpos p < 2 ^ d -> Zpos (digits2_pos p) = d.
Proof.
  intros [Hl Hu]. pose proof (digits2_bounds p) as [Hl' Hu'].
  set (k := Zpos (digits2_pos p)) in *.
  assert (0 < k) by (unfold k; lia).
  destruct (Z.lt_trichotomy k d) as [Hlt | [Heq | Hgt]]; [|exact Heq|].
  - exfalso. assert (2 ^ k <= 2 ^ (d - 1)) by (apply Z.pow_le_mono_r; lia). lia.
  - exfalso. assert (0 <= d \/ d < 0) as [Hd|Hd] by lia.
    + assert (2 ^ d <= 2 ^ (k - 1)) by (apply Z.pow_le_mono_r; lia). lia.
    + rewrite (Z.pow_neg_r 2 d Hd) in Hu. lia.
Qed.

Lemma shr_1_m (mrs : shr_record) :
  0 <= shr_m mrs -> shr_m (shr_1 mrs) = shr_m mrs / 2.
Proof.
  destruct mrs as [m r s]. simpl. intros Hm.
  destruct m as [|p|p]; [reflexivity| |lia].
  destruct p as [p|p|]; simpl shr_m.
  - rewrite Pos2Z.inj_xI. apply Z.div_unique with 1; lia.
  - rewrite Pos2Z.inj_xO. apply Z.div_unique with 0; lia.
  - reflexivity.
Qed.

Lemma iter_shr_1_m (p : positive) :
  forall mrs, 0 <= shr_m mrs ->
    shr_m (SpecFloat.iter_pos shr_1 p mrs) = shr_m mrs / 2 ^ Zpos p.
Proof.
  assert (Hnn : forall mrs, 0 <= shr_m mrs -> 0 <= shr_m (shr_1 mrs)).
  { intros mrs H. rewrite shr_1_m by exact H. apply Z.div_pos; lia. }
  induction p as [p IH | p IH |]; intros mrs Hm; simpl SpecFloat.iter_pos.
  - assert (H1 : 0 <= shr_m (shr_1 mrs)) by auto.
    assert (H2 : 0 <= shr_m (SpecFloat.iter_pos shr_1 p (shr_1 mrs))).
    { rewrite IH by exact H1. apply Z.div_pos; lia. }
    rewrite IH by exact H2. rewrite IH by exact H1. rewrite shr_1_m by exact Hm.
    rewrite !Z.div_div by lia. f_equal.
    replace (Z.pos p~1) with (1 + Z.pos p + Z.pos p) by lia.
    rewrite !Z.pow_add_r by lia. change (2 ^ 1) with 2. lia.
  - assert (H2 : 0 <= shr_m (SpecFloat.iter_pos shr_1 p mrs)).
    { rewrite IH by exact Hm. apply Z.div_pos; lia. }
    rewrite IH by exact H2. rewrite IH by exact Hm.
    rewrite Z.div_div by lia. f_equal.
    replace (Z.pos p~0) with (Z.pos p + Z.pos p) by lia.
    now rewrite Z.pow_add_r by lia.
  - rewrite shr_1_m by exact Hm. reflexivity.
Qed.

(** *** Rounding to 53 digits *)

Lemma fexp_normal (d : Z) : -1074 <= d - 53 -> fexp 53 1024 d = d - 53.
Proof. intros H. unfold fexp, emin. lia. Qed.

Lemma shr_record_of_loc_m (m : Z) (l : location) : shr_m (shr_record_of_loc m l) = m.
Proof. destruct l as [|[]]; reflexivity. Qed.

Lemma shr_fexp_spec (m e : Z) (l : location) (n : Z) :
  0 < m -> Zdigits2 m = 53 + n -> 0 <= n -> -1074 <= e + n ->
  shr_m (fst (shr_fexp 53 1024 m e l)) = m / 2 ^ n
  /\ snd (shr_fexp 53 1024 m e l) = e + n.
Proof.
  intros Hm Hd Hn He. unfold shr_fexp. rewrite Hd.
  rewrite fexp_normal by lia.
  replace (53 + n + e - 53 - e) with n by lia.
  destruct n as [|p|p]; [| |lia].
  - simpl. rewrite shr_record_of_loc_m. split; [now rewrite Z.div_1_r | lia].
  - simpl. split; [|reflexivity].
    rewrite iter_shr_1_m; rewrite shr_record_of_loc_m; [reflexivity | lia].
Qed.

Lemma round_nearest_even_cases (m : Z) (l : location) :
  round_nearest_even m l = m \/ round_nearest_even m l = m + 1.
Proof.
  destruct l as [|[]]; simpl; auto. destruct (Z.even m); auto.
Qed.

Lemma Zdigits2_unique (m d : Z) : 2 ^ (d - 1) <= m < 2 ^ d -> 0 < m -> Zdigits2 m = d.
Proof.
  intros H Hm. destruct m as [|p|p]; try lia. cbn [Zdigits2]. now apply digits2_unique.
Qed.

(** Rounding a positive mantissa of [53 + n] digits in the normal range. *)
Lemma binary_round_aux_spec (m e : Z) (l : location) (n : Z) :
  0 < m -> Zdigits2 m = 53 + n -> 0 <= n -> -1074 <= e + n -> e + n < 971 ->
  exists (m' : positive) (e' : Z),
    binary_round_aux 53 1024 false m e l = S754_finite false m' e'
    /\ Zpos (digits2_pos m') = 53
    /\ e + n <= e' <= e + n + 1
    /\ (Zpos m' * 2 ^ (e' - (e + n)) = m / 2 ^ n
        \/ Zpos m' * 2 ^ (e' - (e + n)) = m / 2 ^ n + 1).
Proof.
  intros Hm Hd Hn He Hmax.
  assert (HM : 2 ^ 52 <= m / 2 ^ n < 2 ^ 53).
  { destruct m as [|p|p]; try lia. cbn [Zdigits2] in Hd.
    pose proof (digits2_bounds p) as [Hl Hu]. rewrite Hd in Hl, Hu.
    replace (53 + n - 1) with (52 + n) in Hl by lia.
    rewrite Z.pow_add_r in Hl by lia. rewrite Z.pow_add_r in Hu by lia.
    assert (0 < 2 ^ n) by (apply Z.pow_pos_nonneg; lia).
    split.
    - apply Z.div_le_lower_bound; lia.
    - apply Z.div_lt_upper_bound; lia. }
  unfold binary_round_aux.
  pose proof (shr_fexp_spec m e l n Hm Hd Hn He) as [H1 H2].
  destruct (shr_fexp 53 1024 m e l) as [mrs' e1]. simpl in H1, H2. subst e1.
  set (m2 := round_nearest_even (shr_m mrs') (loc_of_shr_record mrs')).
  assert (Hm2 : m2 = m / 2 ^ n \/ m2 = m / 2 ^ n + 1).
  { unfold m2. rewrite <- H1. apply round_nearest_even_cases. }
  destruct (Z.eq_dec m2 (2 ^ 53)) as [Htop | Hlow].
  - (* the mantissa rounded up to 2^53: one more shift *)
    assert (Hd2 : Zdigits2 m2 = 53 + 1) by (rewrite Htop; reflexivity).
    pose proof (shr_fexp_spec m2 (e + n) loc_Exact 1 ltac:(lia) Hd2 ltac:(lia) ltac:(lia))
      as [H3 H4].
    destruct (shr_fexp 53 1024 m2 (e + n) loc_Exact) as [mrs'' e2].
    simpl in H3, H4. subst e2. rewrite H3, Htop. change (2 ^ 53 / 2 ^ 1) with (2 ^ 52).
    change (2 ^ 52) with (Zpos 4503599627370496).
    replace (e + n + 1 <=? 1024 - 53) with true by (symmetry; apply Z.leb_le; lia).
    exists 4503599627370496%positive, (e + n + 1).
    split; [reflexivity|]. split; [reflexivity|]. split; [lia|].
    replace (e + n + 1 - (e + n)) with 1 by lia. right.
    destruct Hm2 as [Hm2|Hm2]; [lia|]. rewrite <- Hm2, Htop. reflexivity.
  - assert (Hr : 2 ^ 52 <= m2 < 2 ^ 53) by lia.
    assert (Hd2 : Zdigits2 m2 = 53 + 0)
      by (apply Zdigits2_unique; [exact Hr | lia]).
    pose proof (shr_fexp_spec m2 (e + n) loc_Exact 0 ltac:(lia) Hd2 ltac:(lia) ltac:(lia))
      as [H3 H4].
    destruct (shr_fexp 53 1024 m2 (e + n) loc_Exact) as [mrs'' e2].
    simpl in H3, H4. subst e2. rewrite H3, Z.div_1_r.
    destruct m2 as [|p|p] eqn:Ep; try lia.
    replace (e + n + 0 <=? 1024 - 53) with true by (symmetry; apply Z.leb_le; lia).
    exists p, (e + n + 0).
    split; [reflexivity|]. split.
    + cbn [Zdigits2] in Hd2. lia.
    + split; [lia|]. replace (e + n + 0 - (e + n)) with 0 by lia.
      rewrite Z.mul_1_r. exact Hm2.
Qed.


(** *** Floats as rationals *)

Lemma pow2_pos (e : Z) : (0 < 2 ^ e)%Q.
Proof. apply Qpower_0_lt. reflexivity. Qed.

Lemma pow2_add (a b : Z) : (2 ^ (a + b) == 2 ^ a * 2 ^ b)%Q.
Proof. apply Qpower_plus. discriminate. Qed.

Lemma pow2_inject (k : Z) : 0 <= k -> (inject_Z (2 ^ k) == 2 ^ k)%Q.
Proof. intros H. now rewrite Zpower_Qpower. Qed.

Lemma pow2_le (a b : Z) : a <= b -> (2 ^ a <= 2 ^ b)%Q.
Proof. intros H. apply Qpower_le_compat_l; [exact H | discriminate]. Qed.


Lemma normal_value_bounds (x : pyfloat) (e : Z) :
  normal x e -> (2 ^ (e + 52) <= float_value x /\ float_value x < 2 ^ (e + 53))%Q.
Proof.
  intros (m & -> & Hd). pose proof (digits2_bounds m) as [Hl Hu]. rewrite Hd in Hl, Hu.
  simpl float_value. rewrite !pow2_add.
  pose proof (pow2_pos e) as He.
  change (2 ^ (53 - 1)) with 4503599627370496 in Hl.
  change (2 ^ 53) with 9007199254740992 in Hu.
  assert (H1 : (inject_Z 4503599627370496 <= inject_Z (Zpos m))%Q)
    by (rewrite <- Zle_Qle; exact Hl).
  assert (H2 : (inject_Z (Zpos m) < inject_Z 9007199254740992)%Q)
    by (rewrite <- Zlt_Qlt; exact Hu).
  change (2 ^ 52)%Q with (inject_Z 4503599627370496).
  change (2 ^ 53)%Q with (inject_Z 9007199254740992).
  split; nra.
Qed.

(** The result of rounding lies on the grid [2 ^ (e + n)], next to the
    truncated mantissa. *)
Lemma binary_round_aux_value (m e : Z) (l : location) (n : Z) :
  0 < m -> Zdigits2 m = 53 + n -> 0 <= n -> -1074 <= e + n -> e + n < 971 ->
  exists e',
    normal (binary_round_aux 53 1024 false m e l) e'
    /\ e + n <= e' <= e + n + 1
    /\ (inject_Z (m / 2 ^ n) * 2 ^ (e + n)
        <= float_value (binary_round_aux 53 1024 false m e l)
        <= (inject_Z (m / 2 ^ n) + 1) * 2 ^ (e + n))%Q.
Proof.
  intros Hm Hd Hn He Hmax.
  destruct (binary_round_aux_spec m e l n Hm Hd Hn He Hmax)
    as (m' & e' & Hr & Hd' & He' & Hv).
  exists e'. rewrite Hr. split; [now exists m'|]. split; [exact He'|].
  simpl float_value.
  assert (Hp : (2 ^ e' == inject_Z (2 ^ (e' - (e + n))) * 2 ^ (e + n))%Q).
  { rewrite pow2_inject by lia. rewrite <- pow2_add.
    replace (e' - (e + n) + (e + n)) with e' by lia. reflexivity. }
  rewrite Hp.
  pose proof (pow2_pos (e + n)) as Hg.
  set (G := (2 ^ (e + n))%Q) in *.
  assert (Hq : (inject_Z (Zpos m') * (inject_Z (2 ^ (e' - (e + n))) * G)
                == inject_Z (Zpos m' * 2 ^ (e' - (e + n))) * G)%Q)
    by (rewrite inject_Z_mult; ring).
  rewrite Hq.
  destruct Hv as [-> | ->].
  - split; nra.
  - rewrite inject_Z_plus. change (inject_Z 1) with 1%Q. split; nra.
Qed.


(** *** Division *)

Lemma bracket_rel_error (G MQ v x : Q) :
  (0 < G -> inject_Z (2 ^ 52) <= MQ ->
   MQ * G <= v <= (MQ + 1) * G ->
   MQ * G <= x <= (MQ + 1) * G ->
   x * (1 - ulp_rel) <= v <= x * (1 + ulp_rel))%Q.
Proof.
  unfold ulp_rel. change (inject_Z (2 ^ 52)) with (4503599627370496 # 1)%Q.
  intros HG HM [Hv1 Hv2] [Hx1 Hx2].
  assert (HG' : (G <= x * (1 # 4503599627370496))%Q) by nra.
  split; nra.
Qed.

Lemma div_core_small (pa pb : positive) :
  let d1 := Zpos (digits2_pos pa) in
  let d2 := Zpos (digits2_pos pb) in
  let s := d2 + 53 - d1 in
  d1 <= 53 -> d2 <= 53 ->
  SFdiv_core_binary 53 1024 (Zpos pa) 0 (Zpos pb) 0
  = (Zpos pa * 2 ^ s / Zpos pb, - s,
     new_location (Zpos pb) (Zpos pa * 2 ^ s mod Zpos pb)).
Proof.
  intros d1 d2 s H1 H2. unfold SFdiv_core_binary.
  cbn [Zdigits2]. fold d1 d2.
  assert (0 < d1) by (unfold d1; lia). assert (0 < d2) by (unfold d2; lia).
  replace (d1 + 0 - (d2 + 0)) with (d1 - d2) by lia.
  rewrite fexp_normal by lia.
  replace (Z.min (d1 - d2 - 53) (0 - 0)) with (- s) by (unfold s; lia).
  replace (0 - 0 - - s) with s by lia.
  destruct s as [|ps|ps] eqn:Es; [unfold s in Es; lia | | unfold s in Es; lia].
  rewrite Z.shiftl_mul_pow2 by lia.
  unfold Z.div, Z.modulo.
  destruct (Z.div_eucl (Z.pos pa * 2 ^ Z.pos ps) (Z.pos pb)) as [q r]. reflexivity.
Qed.

Lemma div_bracket_lower (A B P S MQ : Q) :
  (0 < B -> 0 < S -> MQ * P * B <= A * S -> MQ * (P / S) <= A / B)%Q.
Proof.
  intros HB HS H. apply Qle_shift_div_l; [exact HB|].
  setoid_replace (MQ * (P / S) * B)%Q with (MQ * P * B / S)%Q
    by (field; intros E; rewrite E in HS; discriminate).
  apply Qle_shift_div_r; [exact HS | exact H].
Qed.

Lemma div_bracket_upper (A B P S MQ : Q) :
  (0 < B -> 0 < S -> A * S <= MQ * P * B -> A / B <= MQ * (P / S))%Q.
Proof.
  intros HB HS H. apply Qle_shift_div_r; [exact HB|].
  setoid_replace (MQ * (P / S) * B)%Q with (MQ * P * B / S)%Q
    by (field; intros E; rewrite E in HS; discriminate).
  apply Qle_shift_div_l; [exact HS | exact H].
Qed.

Lemma pow2_sub (n s : Z) : (2 ^ (- s + n) == 2 ^ n / 2 ^ s)%Q.
Proof. rewrite pow2_add, Qpower_opp. unfold Qdiv. ring. Qed.

(** The quotient of two integers below [2 ^ 53]: a normal float within one
    unit in the last place of the exact quotient. *)
Lemma SFdiv_small (pa pb : positive) :
  Zpos pa < 2 ^ 53 -> Zpos pb < 2 ^ 53 ->
  let q := SFdiv 53 1024 (S754_finite false pa 0) (S754_finite false pb 0) in
  exists e,
    normal q e /\ -107 <= e <= 1
    /\ (inject_Z (Zpos pa) / inject_Z (Zpos pb) * (1 - ulp_rel) <= float_value q
        <= inject_Z (Zpos pa) / inject_Z (Zpos pb) * (1 + ulp_rel))%Q.
Proof.
  intros Ha Hb q. unfold q, SFdiv. cbn [xorb].
  pose proof (digits2_bounds pa) as [Hal Hau].
  pose proof (digits2_bounds pb) as [Hbl Hbu].
  set (d1 := Zpos (digits2_pos pa)) in *. set (d2 := Zpos (digits2_pos pb)) in *.
  assert (Hd1 : 0 < d1 <= 53).
  { split; [unfold d1; lia|]. destruct (Z_le_gt_dec d1 53) as [H|H]; [exact H|].
    assert (2 ^ 53 <= 2 ^ (d1 - 1)) by (apply Z.pow_le_mono_r; lia). lia. }
  assert (Hd2 : 0 < d2 <= 53).
  { split; [unfold d2; lia|]. destruct (Z_le_gt_dec d2 53) as [H|H]; [exact H|].
    assert (2 ^ 53 <= 2 ^ (d2 - 1)) by (apply Z.pow_le_mono_r; lia). lia. }
  rewrite (div_core_small pa pb) by (fold d1 d2; lia). fold d1 d2.
  set (s := d2 + 53 - d1). set (A := Zpos pa) in *. set (B := Zpos pb) in *.
  assert (Hs : 0 < s <= 105) by (unfold s; lia).
  assert (HS : 0 < 2 ^ s) by (apply Z.pow_pos_nonneg; lia).
  set (Q0 := A * 2 ^ s / B).
  assert (HQ : 2 ^ 52 <= Q0 < 2 ^ 54).
  { unfold Q0. split.
    - apply Z.div_le_lower_bound; [lia|].
      assert (2 ^ (d1 - 1) * 2 ^ s = 2 ^ 52 * 2 ^ d2).
      { rewrite <- !Z.pow_add_r by lia. f_equal. unfold s. lia. }
      nia.
    - apply Z.div_lt_upper_bound; [lia|].
      assert (2 ^ d1 * 2 ^ s = 2 ^ 54 * 2 ^ (d2 - 1)).
      { rewrite <- !Z.pow_add_r by lia. f_equal. unfold s. lia. }
      nia. }
  assert (HQdiv : Q0 * B <= A * 2 ^ s < (Q0 + 1) * B).
  { unfold Q0. pose proof (Z.div_mod (A * 2 ^ s) B ltac:(lia)).
    pose proof (Z.mod_pos_bound (A * 2 ^ s) B ltac:(lia)). nia. }
  set (n := if Z_lt_dec Q0 (2 ^ 53) then 0 else 1).
  assert (Hn : 0 <= n <= 1) by (unfold n; destruct (Z_lt_dec Q0 (2 ^ 53)); lia).
  assert (Hdig : Zdigits2 Q0 = 53 + n).
  { apply Zdigits2_unique; [|lia]. unfold n.
    destruct (Z_lt_dec Q0 (2 ^ 53)); simpl (53 + _ - 1); simpl (53 + _); lia. }
  destruct (binary_round_aux_value Q0 (- s)
              (new_location B (A * 2 ^ s mod B)) n
              ltac:(lia) Hdig ltac:(lia) ltac:(lia) ltac:(lia))
    as (e' & Hnorm & He' & Hval).
  exists e'. split; [exact Hnorm|]. split; [lia|].
  set (M := Q0 / 2 ^ n) in *.
  assert (HP : 0 < 2 ^ n) by (apply Z.pow_pos_nonneg; lia).
  assert (HM : 2 ^ 52 <= M /\ M * 2 ^ n <= Q0 < (M + 1) * 2 ^ n).
  { unfold M. pose proof (Z.div_mod Q0 (2 ^ n) ltac:(lia)).
    pose proof (Z.mod_pos_bound Q0 (2 ^ n) ltac:(lia)).
    split; [|nia]. apply Z.div_le_lower_bound; [lia|].
    unfold n in *. destruct (Z_lt_dec Q0 (2 ^ 53)); simpl (2 ^ _) in *; lia. }
  destruct HM as [HM52 HMq].
  apply (bracket_rel_error (2 ^ (- s + n)) (inject_Z M)).
  - apply pow2_pos.
  - rewrite <- Zle_Qle. exact HM52.
  - exact Hval.
  - assert (HBq : (0 < inject_Z B)%Q) by (rewrite Zlt_Qlt in *; unfold B; reflexivity).
    assert (HSq : (0 < 2 ^ s)%Q) by apply pow2_pos.
    rewrite pow2_sub. split.
    + apply div_bracket_lower; [exact HBq | exact HSq |].
      rewrite <- !pow2_inject by lia. rewrite <- !inject_Z_mult, <- Zle_Qle. nia.
    + apply div_bracket_upper; [exact HBq | exact HSq |].
      rewrite <- !pow2_inject by lia.
      change 1%Q with (inject_Z 1). rewrite <- inject_Z_plus.
      rewrite <- !inject_Z_mult, <- Zle_Qle. nia.
Qed.

(** *** Conversion from [int] and product *)

Lemma iter_xO_pow (m d : positive) : Zpos (Pos.iter xO m d) = Zpos m * 2 ^ Zpos d.
Proof.
  induction d as [|d IH] using Pos.peano_ind.
  - simpl. lia.
  - rewrite Pos.iter_succ, Pos2Z.inj_xO, IH, Pos2Z.inj_succ, Z.pow_succ_r by lia. lia.
Qed.

(** A mantissa of 53 digits with nothing cut off is kept as it is. *)
Lemma binary_round_aux_exact (m : positive) (e : Z) :
  Zpos (digits2_pos m) = 53 -> -1074 <= e <= 971 ->
  binary_round_aux 53 1024 false (Zpos m) e loc_Exact = S754_finite false m e.
Proof.
  intros Hd He.
  assert (Hs : shr_fexp 53 1024 (Zpos m) e loc_Exact
               = ({| shr_m := Zpos m; shr_r := false; shr_s := false |}, e)).
  { unfold shr_fexp. cbn [Zdigits2]. rewrite Hd, fexp_normal by lia.
    replace (53 + e - 53 - e) with 0 by lia. reflexivity. }
  unfold binary_round_aux. rewrite Hs. cbn [shr_m loc_of_shr_record round_nearest_even].
  rewrite Hs. cbn [shr_m].
  replace (e <=? 1024 - 53) with true by (symmetry; apply Z.leb_le; lia).
  reflexivity.
Qed.

(** [float(n)] is exact below [2 ^ 53]. *)
Lemma binary_normalize_small (p : positive) :
  Zpos p < 2 ^ 53 ->
  exists e, normal (binary_normalize 53 1024 (Zpos p) 0 false) e
            /\ -52 <= e <= 0
            /\ (float_value (binary_normalize 53 1024 (Zpos p) 0 false)
                == inject_Z (Zpos p))%Q.
Proof.
  intros Hp. pose proof (digits2_bounds p) as [Hl Hu].
  set (d := Zpos (digits2_pos p)) in *.
  assert (Hd : 0 < d <= 53).
  { split; [unfold d; lia|]. destruct (Z_le_gt_dec d 53) as [H|H]; [exact H|].
    assert (2 ^ 53 <= 2 ^ (d - 1)) by (apply Z.pow_le_mono_r; lia). lia. }
  unfold binary_normalize, binary_round. fold d.
  replace (d + 0) with d by lia. rewrite fexp_normal by lia.
  unfold shl_align. replace (d - 53 - 0) with (d - 53) by lia.
  destruct (d - 53) as [|k|k] eqn:Ek; [| lia |].
  - assert (d = 53) by lia.
    rewrite binary_round_aux_exact by (fold d; lia).
    exists 0. split; [exists p; split; [reflexivity | fold d; lia]|].
    split; [lia|]. simpl. ring.
  - assert (Hk : Zpos k = 53 - d) by lia.
    assert (Hm : Zpos (Pos.iter xO p k) = Zpos p * 2 ^ Zpos k) by apply iter_xO_pow.
    assert (Hdig : Zpos (digits2_pos (Pos.iter xO p k)) = 53).
    { apply digits2_unique. rewrite Hm, Hk.
      assert (E1 : 2 ^ (d - 1) * 2 ^ (53 - d) = 2 ^ (53 - 1))
        by (rewrite <- Z.pow_add_r by lia; f_equal; lia).
      assert (E2 : 2 ^ d * 2 ^ (53 - d) = 2 ^ 53)
        by (rewrite <- Z.pow_add_r by lia; f_equal; lia).
      assert (0 < 2 ^ (53 - d)) by (apply Z.pow_pos_nonneg; lia).
      nia. }
    rewrite binary_round_aux_exact by (try exact Hdig; lia).
    exists (Zneg k). split; [exists (Pos.iter xO p k); split; [reflexivity | exact Hdig]|].
    split; [lia|].
    cbn [float_value cond_Zopp]. rewrite Hm, inject_Z_mult, pow2_inject by lia.
    change (Z.neg k) with (- Zpos k). rewrite Qpower_opp.
    field. intros E. pose proof (pow2_pos (Zpos k)) as Hpos. rewrite E in Hpos. discriminate.
Qed.

(** The product of two normal floats: within one unit in the last place. *)
Lemma SFmul_normal (x y : pyfloat) (ex ey : Z) :
  normal x ex -> normal y ey -> -1000 <= ex + ey <= 800 ->
  exists e,
    normal (SFmul 53 1024 x y) e
    /\ (float_value x * float_value y * (1 - ulp_rel) <= float_value (SFmul 53 1024 x y)
        <= float_value x * float_value y * (1 + ulp_rel))%Q.
Proof.
  intros (mx & -> & Hdx) (my & -> & Hdy) He.
  unfold SFmul. cbn [xorb].
  pose proof (digits2_bounds mx) as [Hxl Hxu]. rewrite Hdx in Hxl, Hxu.
  pose proof (digits2_bounds my) as [Hyl Hyu]. rewrite Hdy in Hyl, Hyu.
  change (2 ^ (53 - 1)) with 4503599627370496 in *.
  change (2 ^ 53) with 9007199254740992 in *.
  set (P := Zpos (mx * my)).
  assert (HP : P = Zpos mx * Zpos my) by (unfold P; apply Pos2Z.inj_mul).
  assert (HPb : 2 ^ 104 <= P < 2 ^ 106).
  { change (2 ^ 104) with (4503599627370496 * 4503599627370496).
    change (2 ^ 106) with (9007199254740992 * 9007199254740992). nia. }
  set (n := if Z_lt_dec P (2 ^ 105) then 52 else 53).
  assert (Hn : 52 <= n <= 53) by (unfold n; destruct (Z_lt_dec P (2 ^ 105)); lia).
  assert (Hdig : Zdigits2 P = 53 + n).
  { apply Zdigits2_unique; [|lia]. unfold n.
    destruct (Z_lt_dec P (2 ^ 105)); simpl (53 + _ - 1); simpl (53 + _); lia. }
  destruct (binary_round_aux_value P (ex + ey) loc_Exact n
              ltac:(lia) Hdig ltac:(lia) ltac:(lia) ltac:(lia))
    as (e' & Hnorm & He' & Hval).
  exists e'. split; [exact Hnorm|].
  set (M := P / 2 ^ n) in *.
  assert (HPn : 0 < 2 ^ n) by (apply Z.pow_pos_nonneg; lia).
  assert (HM : 2 ^ 52 <= M /\ M * 2 ^ n <= P < (M + 1) * 2 ^ n).
  { unfold M. pose proof (Z.div_mod P (2 ^ n) ltac:(lia)).
    pose proof (Z.mod_pos_bound P (2 ^ n) ltac:(lia)).
    split; [|nia]. apply Z.div_le_lower_bound; [lia|].
    unfold n in *. destruct (Z_lt_dec P (2 ^ 105)).
    - change (2 ^ 52 * 2 ^ 52) with (2 ^ 104). lia.
    - change (2 ^ 53 * 2 ^ 52) with (2 ^ 105). lia. }
  destruct HM as [HM52 HMq].
  apply (bracket_rel_error (2 ^ (ex + ey + n)) (inject_Z M)).
  - apply pow2_pos.
  - rewrite <- Zle_Qle. exact HM52.
  - exact Hval.
  - cbn [float_value cond_Zopp].
    assert (Hx : (inject_Z (Zpos mx) * 2 ^ ex * (inject_Z (Zpos my) * 2 ^ ey)
                  == inject_Z P * 2 ^ (ex + ey))%Q).
    { rewrite HP, inject_Z_mult, pow2_add. ring. }
    rewrite Hx. replace (ex + ey + n) with (n + (ex + ey)) by lia.
    rewrite (pow2_add n), <- (pow2_inject n) by lia.
    pose proof (pow2_pos (ex + ey)) as Hg.
    assert (H1 : (inject_Z (M * 2 ^ n) <= inject_Z P)%Q) by (rewrite <- Zle_Qle; lia).
    assert (H2 : (inject_Z P <= inject_Z ((M + 1) * 2 ^ n))%Q) by (rewrite <- Zle_Qle; lia).
    rewrite inject_Z_mult in H1, H2. rewrite inject_Z_plus in H2.
    change (inject_Z 1) with 1%Q in H2.
    split; nra.
Qed.

(** *** Comparison, minimum and truncation *)

Lemma float_ltb_spec (x y : pyfloat) (ex ey : Z) :
  normal x ex -> normal y ey ->
  (float_ltb x y = true <-> (float_value x < float_value y)%Q).
Proof.
  intros Hx Hy.
  pose proof (normal_value_bounds x ex Hx) as [Hxl Hxu].
  pose proof (normal_value_bounds y ey Hy) as [Hyl Hyu].
  destruct Hx as (mx & -> & Hdx). destruct Hy as (my & -> & Hdy).
  unfold float_ltb, SFltb, SFcompare.
  destruct (Z.compare_spec ex ey) as [E | E | E].
  - subst ey. cbn [float_value cond_Zopp]. pose proof (pow2_pos ex) as Hg.
    change (Pos.compare_cont Eq mx my) with (Pos.compare mx my).
    destruct (Pos.compare_spec mx my) as [E | E | E].
    + subst my. split; [discriminate | intros H; lra].
    + split; [intros _ | reflexivity].
      assert (inject_Z (Zpos mx) < inject_Z (Zpos my))%Q by (rewrite <- Zlt_Qlt; lia). nra.
    + split; [discriminate | intros H].
      assert (inject_Z (Zpos my) < inject_Z (Zpos mx))%Q by (rewrite <- Zlt_Qlt; lia). nra.
  - split; [intros _ | reflexivity].
    assert (2 ^ (ex + 53) <= 2 ^ (ey + 52))%Q by (apply pow2_le; lia). lra.
  - split; [discriminate | intros H].
    assert (2 ^ (ey + 53) <= 2 ^ (ex + 52))%Q by (apply pow2_le; lia). lra.
Qed.

Lemma float_one_normal : normal float_one (-52) /\ (float_value float_one == 1)%Q.
Proof. split; [exists 4503599627370496%positive; split; reflexivity | reflexivity]. Qed.

(** The value of [min(a, b, c)] is below each argument and is one of them. *)
Lemma min3_spec (a b c : pyfloat) (ea eb ec : Z) :
  normal a ea -> normal b eb -> normal c ec ->
  (exists e, normal (min3 a b c) e /\ (e = ea \/ e = eb \/ e = ec))
  /\ (float_value (min3 a b c) <= float_value a
      /\ float_value (min3 a b c) <= float_value b
      /\ float_value (min3 a b c) <= float_value c)%Q
  /\ (min3 a b c = a \/ min3 a b c = b \/ min3 a b c = c).
Proof.
  intros Ha Hb Hc. unfold min3.
  pose proof (float_ltb_spec b a eb ea Hb Ha) as Hba.
  destruct (float_ltb b a) eqn:Eba.
  - assert (Hlt : (float_value b < float_value a)%Q) by (now apply Hba).
    pose proof (float_ltb_spec c b ec eb Hc Hb) as Hcb.
    destruct (float_ltb c b) eqn:Ecb.
    + assert (float_value c < float_value b)%Q by (now apply Hcb).
      split; [exists ec; auto|]. split; [repeat split; lra | auto].
    + assert (~ (float_value c < float_value b)%Q) by (intros H; apply Hcb in H; discriminate).
      split; [exists eb; auto|]. split; [repeat split; lra | auto].
  - assert (Hge : ~ (float_value b < float_value a)%Q) by (intros H; apply Hba in H; discriminate).
    pose proof (float_ltb_spec c a ec ea Hc Ha) as Hca.
    destruct (float_ltb c a) eqn:Eca.
    + assert (float_value c < float_value a)%Q by (now apply Hca).
      split; [exists ec; auto|]. split; [repeat split; lra | auto].
    + assert (~ (float_value c < float_value a)%Q) by (intros H; apply Hca in H; discriminate).
      split; [exists ea; auto|]. split; [repeat split; lra | auto].
Qed.

(** [int(x)] of a positive float is the integer just below its value. *)
Lemma int_of_float_spec (m : positive) (e : Z) :
  exists z, int_of_float (S754_finite false m e) = inr z
            /\ (inject_Z z <= float_value (S754_finite false m e) < inject_Z z + 1)%Q.
Proof.
  cbn [int_of_float cond_Zopp float_value].
  destruct e as [|k|k].
  - exists (Zpos m * 2 ^ 0). split; [reflexivity|]. simpl (2 ^ 0). 
    rewrite Z.mul_1_r. change (2 ^ 0)%Q with 1%Q. split; lra.
  - exists (Zpos m * 2 ^ Zpos k). split; [reflexivity|].
    rewrite inject_Z_mult, pow2_inject by lia. split; lra.
  - exists (Zpos m / 2 ^ Zpos k). split; [reflexivity|].
    assert (HP : 0 < 2 ^ Zpos k) by (apply Z.pow_pos_nonneg; lia).
    pose proof (Z.div_mod (Zpos m) (2 ^ Zpos k) ltac:(lia)) as Hdm.
    pose proof (Z.mod_pos_bound (Zpos m) (2 ^ Zpos k) ltac:(lia)) as Hmb.
    set (z := Zpos m / 2 ^ Zpos k) in *.
    assert (H1 : (inject_Z (z * 2 ^ Zpos k) <= inject_Z (Zpos m))%Q)
      by (rewrite <- Zle_Qle; lia).
    assert (H2 : (inject_Z (Zpos m) < inject_Z ((z + 1) * 2 ^ Zpos k))%Q)
      by (rewrite <- Zlt_Qlt; lia).
    rewrite inject_Z_mult, pow2_inject in H1, H2 by lia.
    rewrite inject_Z_plus in H2. change (inject_Z 1) with 1%Q in H2.
    change (Z.neg k) with (- Zpos k). rewrite Qpower_opp.
    pose proof (pow2_pos (Zpos k)) as Hg.
    set (G := (2 ^ Zpos k)%Q) in *.
    assert (Hi : (G * / G == 1)%Q) by (apply Qmult_inv_r; lra).
    assert (Hip : (0 < / G)%Q) by (apply Qinv_lt_0_compat; exact Hg).
    set (iG := (/ G)%Q) in *.
    assert (E1 : (inject_Z z * G * iG == inject_Z z)%Q)
      by (rewrite <- Qmult_assoc, Hi; ring).
    assert (E2 : ((inject_Z z + 1) * G * iG == inject_Z z + 1)%Q)
      by (rewrite <- Qmult_assoc, Hi; ring).
    assert (L1 : (inject_Z z * G * iG <= inject_Z (Zpos m) * iG)%Q)
      by (apply Qmult_le_compat_r; lra).
    assert (L2 : (inject_Z (Zpos m) * iG < (inject_Z z + 1) * G * iG)%Q)
      by (apply Qmult_lt_compat_r; lra).
    split; lra.
Qed.

(** *** From the float error to the pixel *)

(** From the error of the float computation to the pixel: [t] is the ideal
    factor, [vs] the float factor, [vp] the float product, [nw] its integer
    part; [t * w * h] is an integer, which leaves no room for the float error
    to move the integer part by more than one. *)
Lemma pixel_bound (w h N nw : Z) (t vs vp : Q) :
  0 < w -> 0 < h < 2 ^ 31 ->
  (0 <= t)%Q ->
  (t * inject_Z w <= 768)%Q ->
  (t * inject_Z w * inject_Z h == inject_Z N)%Q ->
  (t * (1 - ulp_rel) <= vs <= t * (1 + ulp_rel))%Q ->
  (inject_Z w * vs * (1 - ulp_rel) <= vp <= inject_Z w * vs * (1 + ulp_rel))%Q ->
  (inject_Z nw <= vp < inject_Z nw + 1)%Q ->
  (t * inject_Z w - 1 <= inject_Z nw <= t * inject_Z w)%Q.
Proof.
  intros Hw Hh Ht HX HN [Hs1 Hs2] [Hp1 Hp2] [Hn1 Hn2].
  assert (HW : (0 < inject_Z w)%Q) by (change 0%Q with (inject_Z 0); rewrite <- Zlt_Qlt; lia).
  assert (HH : (0 < inject_Z h)%Q) by (change 0%Q with (inject_Z 0); rewrite <- Zlt_Qlt; lia).
  assert (HH31 : (inject_Z h <= 2147483648)%Q).
  { change 2147483648%Q with (inject_Z (2 ^ 31)). rewrite <- Zle_Qle. lia. }
  unfold ulp_rel in *.
  set (W := inject_Z w) in *. set (H := inject_Z h) in *.
  set (X := (t * W)%Q) in *.
  assert (HX0 : (0 <= X)%Q) by (unfold X; nra).
  assert (Hws1 : (X * (1 - (1 # 4503599627370496)) <= W * vs)%Q) by (unfold X; nra).
  assert (Hws2 : (W * vs <= X * (1 + (1 # 4503599627370496)))%Q) by (unfold X; nra).
  assert (Hvp2 : (vp <= X + (1 # 1000000000000))%Q) by nra.
  assert (Hvp1 : (X - (1 # 1000000000000) <= vp)%Q) by nra.
  assert (Hup : (inject_Z nw * H < inject_Z N + 1)%Q).
  { rewrite <- HN. fold X. nra. }
  assert (Hlo : (inject_Z N - H - 1 < inject_Z nw * H)%Q).
  { rewrite <- HN. fold X. nra. }
  assert (Hup' : nw * h <= N).
  { assert (nw * h < N + 1); [|lia].
    rewrite Zlt_Qlt, inject_Z_mult, inject_Z_plus. exact Hup. }
  assert (Hlo' : N - h <= nw * h).
  { assert (N - h - 1 < nw * h); [|lia].
    rewrite Zlt_Qlt, inject_Z_mult. unfold Z.sub. rewrite !inject_Z_plus, !inject_Z_opp.
    fold H. change (inject_Z 1) with 1%Q. lra. }
  rewrite Zle_Qle, inject_Z_mult in Hup'. 
  rewrite Zle_Qle, inject_Z_mult in Hlo'. unfold Z.sub in Hlo'.
  rewrite inject_Z_plus, inject_Z_opp in Hlo'. fold H in Hup', Hlo'.
  rewrite <- HN in Hup', Hlo'. fold X in Hup', Hlo'.
  split; nra.
Qed.

(** *** The operations of [scaled_size] *)

Lemma int_truediv_spec (a b : Z) :
  0 < a < 2 ^ 53 -> 0 < b < 2 ^ 53 ->
  exists q e,
    int_truediv a b = inr q /\ normal q e /\ -107 <= e <= 1
    /\ (inject_Z a / inject_Z b * (1 - ulp_rel) <= float_value q
        <= inject_Z a / inject_Z b * (1 + ulp_rel))%Q.
Proof.
  intros Ha Hb. destruct a as [|pa|pa]; try lia. destruct b as [|pb|pb]; try lia.
  destruct (SFdiv_small pa pb ltac:(lia) ltac:(lia)) as (e & Hn & He & Hv).
  exists (SFdiv 53 1024 (S754_finite false pa 0) (S754_finite false pb 0)), e.
  split; [|auto].
  unfold int_truediv. cbn [Z.eqb exact_operand]. unfold float_div.
  destruct Hn as (m & -> & _). reflexivity.
Qed.

Lemma int_mul_float_spec (n : Z) (x : pyfloat) (ex : Z) :
  0 < n < 2 ^ 53 -> normal x ex -> -900 <= ex <= 800 ->
  exists m e,
    int_mul_float n x = inr (S754_finite false m e)
    /\ (inject_Z n * float_value x * (1 - ulp_rel)
        <= float_value (S754_finite false m e)
        <= inject_Z n * float_value x * (1 + ulp_rel))%Q.
Proof.
  intros Hn Hx He. destruct n as [|p|p]; try lia.
  destruct (binary_normalize_small p ltac:(lia)) as (en & Hnorm & Hen & Hval).
  unfold int_mul_float, float_of_int.
  set (fn := binary_normalize 53 1024 (Zpos p) 0 false) in *.
  destruct (SFmul_normal fn x en ex Hnorm Hx ltac:(lia)) as (e & (m & Hm & _) & Hv).
  exists m, e. unfold float_mul. rewrite <- Hm. split.
  - destruct Hnorm as (mn & -> & _). reflexivity.
  - rewrite Hval in Hv. exact Hv.
Qed.


Lemma ideal_factor_facts (w h : Z) :
  0 < w -> 0 < h ->
  let t := ideal_factor w h in
  (0 < t /\ t <= inject_Z max_w / inject_Z w /\ t <= inject_Z max_h / inject_Z h /\ t <= 1)%Q
  /\ (t == inject_Z max_w / inject_Z w \/ t == inject_Z max_h / inject_Z h \/ t == 1)%Q
  /\ exists N, (t * inject_Z w * inject_Z h == inject_Z N)%Q.
Proof.
  intros Hw Hh t.
  assert (HW : (0 < inject_Z w)%Q) by (change 0%Q with (inject_Z 0); rewrite <- Zlt_Qlt; lia).
  assert (HH : (0 < inject_Z h)%Q) by (change 0%Q with (inject_Z 0); rewrite <- Zlt_Qlt; lia).
  set (ta := (inject_Z max_w / inject_Z w)%Q). set (tb := (inject_Z max_h / inject_Z h)%Q).
  assert (Hta : (0 < ta)%Q) by (apply Qlt_shift_div_l; [exact HW | reflexivity]).
  assert (Htb : (0 < tb)%Q) by (apply Qlt_shift_div_l; [exact HH | reflexivity]).
  assert (Hcases : (t == ta \/ t == tb \/ t == 1)%Q).
  { unfold t, ideal_factor. fold ta tb.
    destruct (Q.min_spec (Qmin ta tb) 1%Q) as [[_ E1] | [_ E1]].
    - destruct (Q.min_spec ta tb) as [[_ E2] | [_ E2]]; rewrite E1, E2.
      + left. reflexivity.
      + right. left. reflexivity.
    - right. right. exact E1. }
  assert (Hle : (t <= ta /\ t <= tb /\ t <= 1)%Q).
  { unfold t, ideal_factor. fold ta tb. repeat split.
    - eapply Qle_trans; [apply Q.le_min_l | apply Q.le_min_l].
    - eapply Qle_trans; [apply Q.le_min_l | apply Q.le_min_r].
    - apply Q.le_min_r. }
  split; [|split; [exact Hcases|]].
  - split; [|exact Hle]. destruct Hcases as [E | [E | E]]; rewrite E; auto. reflexivity.
  - destruct Hcases as [E | [E | E]].
    + exists (max_w * h). rewrite E, inject_Z_mult. unfold ta. field. lra.
    + exists (max_h * w). rewrite E, inject_Z_mult. unfold tb. field. lra.
    + exists (w * h). rewrite E, inject_Z_mult. ring.
Qed.

Lemma factor_error (w h : Z) (a b : pyfloat) (ea eb : Z) :
  0 < w -> 0 < h ->
  normal a ea -> normal b eb ->
  (inject_Z max_w / inject_Z w * (1 - ulp_rel) <= float_value a
   <= inject_Z max_w / inject_Z w * (1 + ulp_rel))%Q ->
  (inject_Z max_h / inject_Z h * (1 - ulp_rel) <= float_value b
   <= inject_Z max_h / inject_Z h * (1 + ulp_rel))%Q ->
  (ideal_factor w h * (1 - ulp_rel) <= float_value (min3 a b float_one)
   <= ideal_factor w h * (1 + ulp_rel))%Q.
Proof.
  intros Hw Hh Ha Hb [Ha1 Ha2] [Hb1 Hb2].
  destruct float_one_normal as [H1n H1v].
  destruct (min3_spec a b float_one ea eb (-52) Ha Hb H1n)
    as (_ & (Hla & Hlb & Hl1) & Hsel).
  destruct (ideal_factor_facts w h Hw Hh) as ((Ht0 & Hta & Htb & Ht1) & Hcases & _).
  set (t := ideal_factor w h) in *. unfold ulp_rel in *. rewrite H1v in Hl1.
  split.
  - destruct Hsel as [-> | [-> | ->]]; [nra | nra | rewrite H1v; nra].
  - destruct Hcases as [E | [E | E]]; rewrite E; nra.
Qed.

Lemma scaled_side (n : Z) (s : pyfloat) (es : Z) :
  0 < n < 2 ^ 53 -> normal s es -> -900 <= es <= 800 ->
  exists fp z,
    int_mul_float n s = inr fp /\ int_of_float fp = inr z
    /\ (inject_Z n * float_value s * (1 - ulp_rel) <= float_value fp
        <= inject_Z n * float_value s * (1 + ulp_rel))%Q
    /\ (inject_Z z <= float_value fp < inject_Z z + 1)%Q.
Proof.
  intros Hn Hs He.
  destruct (int_mul_float_spec n s es Hn Hs He) as (m & e & Hm & Hv).
  destruct (int_of_float_spec m e) as (z & Hz & Hb).
  exists (S754_finite false m e), z. auto.
Qed.

(** What lines 196-200 compute for an image of [w] by [h] pixels, both
    below [2 ^ 31]: each side is the ideal factor times the side, rounded
    down, or exactly one less when that product is an integer. *)
Lemma scaled_size_spec (w h : Z) :
  0 < w < 2 ^ 31 -> 0 < h < 2 ^ 31 ->
  exists new_w new_h,
    scaled_size w h = inr (new_w, new_h)
    /\ (0 <= new_w <= max_w /\ 0 <= new_h <= max_h)
    /\ (new_w <= w /\ new_h <= h)
    /\ (ideal_factor w h * inject_Z w - 1 <= inject_Z new_w
        <= ideal_factor w h * inject_Z w)%Q
    /\ (ideal_factor w h * inject_Z h - 1 <= inject_Z new_h
        <= ideal_factor w h * inject_Z h)%Q.
Proof.
  intros Hw Hh.
  assert (H31 : 2 ^ 31 < 2 ^ 53) by reflexivity.
  destruct (int_truediv_spec max_w w ltac:(split; reflexivity) ltac:(lia))
    as (a & ea & Ea & Hna & Hea & Hva).
  destruct (int_truediv_spec max_h h ltac:(split; reflexivity) ltac:(lia))
    as (b & eb & Eb & Hnb & Heb & Hvb).
  destruct float_one_normal as [H1n H1v].
  destruct (min3_spec a b float_one ea eb (-52) Hna Hnb H1n)
    as ((es & Hns & Hes) & _ & _).
  pose proof (factor_error w h a b ea eb ltac:(lia) ltac:(lia) Hna Hnb Hva Hvb) as Hs.
  set (s := min3 a b float_one) in *.
  destruct (scaled_side w s es ltac:(lia) Hns ltac:(lia))
    as (fw & nw & Efw & Enw & Hfw & Hnw).
  destruct (scaled_side h s es ltac:(lia) Hns ltac:(lia))
    as (fh & nh & Efh & Enh & Hfh & Hnh).
  exists nw, nh.
  split.
  { unfold scaled_size. rewrite Ea, Eb. fold s. now rewrite Efw, Enw, Efh, Enh. }
  destruct (ideal_factor_facts w h ltac:(lia) ltac:(lia))
    as ((Ht0 & Hta & Htb & Ht1) & _ & (N & HN)).
  set (t := ideal_factor w h) in *.
  assert (HW : (0 < inject_Z w)%Q) by (change 0%Q with (inject_Z 0); rewrite <- Zlt_Qlt; lia).
  assert (HH : (0 < inject_Z h)%Q) by (change 0%Q with (inject_Z 0); rewrite <- Zlt_Qlt; lia).
  assert (HtW : (t * inject_Z w <= inject_Z max_w)%Q).
  { assert (E : (inject_Z max_w / inject_Z w * inject_Z w == inject_Z max_w)%Q)
      by (field; lra).
    rewrite <- E. apply Qmult_le_compat_r; lra. }
  assert (HtH : (t * inject_Z h <= inject_Z max_h)%Q).
  { assert (E : (inject_Z max_h / inject_Z h * inject_Z h == inject_Z max_h)%Q)
      by (field; lra).
    rewrite <- E. apply Qmult_le_compat_r; lra. }
  assert (Pw : (t * inject_Z w - 1 <= inject_Z nw <= t * inject_Z w)%Q).
  { change (inject_Z max_w) with 768%Q in HtW.
    apply (pixel_bound w h N nw t (float_value s) (float_value fw));
      auto; try lia; lra. }
  assert (Ph : (t * inject_Z h - 1 <= inject_Z nh <= t * inject_Z h)%Q).
  { change (inject_Z max_h) with 512%Q in HtH.
    assert (HN' : (t * inject_Z h * inject_Z w == inject_Z N)%Q)
      by (rewrite <- HN; ring).
    apply (pixel_bound h w N nh t (float_value s) (float_value fh));
      auto; try lia; lra. }
  assert (Zw : (inject_Z nw <= inject_Z max_w /\ inject_Z nw <= inject_Z w
                /\ inject_Z (-1) < inject_Z nw)%Q).
  { change (inject_Z (-1)) with (-1)%Q. repeat split; try lra; nra. }
  assert (Zh : (inject_Z nh <= inject_Z max_h /\ inject_Z nh <= inject_Z h
                /\ inject_Z (-1) < inject_Z nh)%Q).
  { change (inject_Z (-1)) with (-1)%Q. repeat split; try lra; nra. }
  rewrite <- !Zle_Qle, <- !Zlt_Qlt in Zw, Zh.
  repeat split; try lia; tauto.
Qed.

Section RendererFacts.
Context {rt : Runtime}.

End RendererFacts.

(** ** The program on concrete inputs *)

Section Examples.
Existing Instance example_runtime.

Example decode_three_hundred_A : b64decode three_hundred_A = inr (repeat x00 225).
Proof. vm_compute. reflexivity. Qed.

Lemma nested_payload_located : nested_at three_hundred_A 3 nested_payload.
Proof.
  apply (nested_in_dict _ 2 [] (lit "data") _ []); [constructor|].
  apply (nested_in_list _ 1 [] _ []); [constructor|].
  apply (nested_in_dict _ 0 [(lit "id", JInt 7)] (lit "b64") _ []).
  - repeat constructor.
  - constructor.
Defined.

Lemma three_hundred_A_data : forallb base64_data_char three_hundred_A = true.
Proof. vm_compute. reflexivity. Qed.

Lemma nested_payload_decoded :
  search_for_base64 nested_payload None = Some three_hundred_A
  /\ interpret_response nested_payload_response = Image (repeat x00 225)
  /\ exists image_bytes,
       interpret_response nested_payload_response = Image image_bytes
       /\ b64encode image_bytes = three_hundred_A
       /\ len image_bytes = 225.
Proof.
  destruct (proj2 (json_path_decodes_first_candidate nested_payload_response
                     nested_payload eq_refl eq_refl eq_refl)
              three_hundred_A 3%nat eq_refl three_hundred_A_data
              nested_payload_located)
    as (Hfound & Hbytes & _ & Hcpython).
  split; [exact Hfound|].
  split; [exact (Hbytes (repeat x00 225) decode_three_hundred_A)|].
  exact (Hcpython eq_refl).
Defined.

(** The padding character is among those the heuristic lets through and is
    not one of the 64: 300 characters that start with it are located like
    any candidate, and the decoder, left with 299 data characters, raises. *)
Example padding_led_text_fails :
  len padding_led_text = 300
  /\ looks_like_base64 padding_led_text = true
  /\ forallb base64_data_char padding_led_text = false
  /\ search_for_base64 (parsed padding_led_response) None = Some padding_led_text
  /\ b64decode padding_led_text = inl (lit "Incorrect padding")
  /\ interpret_response padding_led_response = Failure (lit "Incorrect padding").
Proof. vm_compute. repeat split; reflexivity. Qed.

(** Status 200 with an image content type and the body [{"error": "x"}]:
    the body is returned as the image.  Status 500 with an empty ["error"]
    next to a base64 payload: the payload is decoded.  Neither result is a
    failure. *)
Lemma error_field_without_failure :
  (json_result image_typed_error = Some (JDict [(lit "error", JStr (lit "x"))])
   /\ interpret_response image_typed_error = Image error_x_body
   /\ ~ (exists m, interpret_response image_typed_error = Failure m
                   /\ contains m (lit "x")))
  /\ (has_error (parsed empty_error_with_payload) = false
      /\ error_value (parsed empty_error_with_payload) = JStr []
      /\ interpret_response empty_error_with_payload = Image (repeat x00 225)
      /\ ~ (exists m, interpret_response empty_error_with_payload = Failure m)).
Proof.
  assert (E1 : interpret_response image_typed_error = Image error_x_body)
    by reflexivity.
  assert (E2 : interpret_response empty_error_with_payload = Image (repeat x00 225))
    by (vm_compute; reflexivity).
  repeat split; auto.
  - intros (m & Hm & _). rewrite E1 in Hm. discriminate.
  - intros (m & Hm). rewrite E2 in Hm. discriminate.
Qed.

Lemma error_x_reported :
  exists m, interpret_response error_x_response = Failure m /\ contains m (lit "x").
Proof.
  exact (proj2 (truthy_error_is_reported error_x_response _ eq_refl eq_refl)
           (lit "x") eq_refl).
Defined.

Lemma png_response_returns_body : interpret_response png_response = Image png_bytes.
Proof. exact (image_response_returns_body png_response eq_refl eq_refl). Defined.

Lemma two_payloads_first_wins :
  search_for_base64 (JList [JStr three_hundred_A; JStr three_hundred_B]) None
  = Some three_hundred_A
  /\ interpret_response two_payloads_response = decode_found three_hundred_A.
Proof.
  pose proof (first_of_two_candidates_wins two_payloads_response _
                [] [] [] three_hundred_A three_hundred_B
                eq_refl eq_refl eq_refl eq_refl (Forall_nil _) eq_refl eq_refl)
    as (H1 & H2 & _).
  exact (conj H1 H2).
Defined.

Lemma empty_error_goes_on_to_search :
  interpret_response empty_error_with_payload
  = after_search empty_error_with_payload (parsed empty_error_with_payload).
Proof.
  exact (proj1 falsy_error_goes_on_to_search empty_error_with_payload _
           eq_refl eq_refl eq_refl).
Defined.

Lemma html_response_mentions_content_type :
  interpret_response html_response = Failure (not_json_message html_response)
  /\ contains (not_json_message html_response) (lit "text/html").
Proof. exact (not_json_mentions_content_type html_response eq_refl eq_refl). Defined.

Lemma blank_prompt_issues_no_request :
  exists dialog,
    (dialog = prompt_missing_dialog \/ dialog = token_missing_dialog)
    /\ dispatch None (inr png_response) (fresh_world (lit "   "))
       = (inr tt, {| ui := fresh_app (lit "   "); trace := [dialog] |})
    /\ existsb is_thread_start
         (trace (snd (dispatch None (inr png_response) (fresh_world (lit "   ")))))
       = false
    /\ existsb is_network_call
         (trace (snd (dispatch None (inr png_response) (fresh_world (lit "   ")))))
       = false.
Proof.
  exact (blank_input_issues_no_request None (inr png_response)
           (fresh_world (lit "   ")) (or_introl eq_refl)).
Defined.

Lemma timeout_keeps_image :
  generated_image (ui stored_world) = Some {| size := (1024, 512); pixels := [] |}
  /\ generated_image
       (ui (snd (generate_image (inl (lit "Read timed out.")) example_request
                   stored_world)))
     = Some {| size := (1024, 512); pixels := [] |}.
Proof.
  split; [reflexivity|].
  exact (proj1 (failed_generation_keeps_image (inl (lit "Read timed out."))
                  example_request stored_world)
           (transport_error _)).
Defined.

(** An image of 1024 by 512 is stored, and the response holds an image of
    2048 by 1.  Its height scales to zero, resize refuses, and the run ends
    in the failure handler: "Generation error" is shown, and the slot holds
    the new image in place of the stored one, while nothing was drawn. *)
Lemma render_failure_replaces_stored_image :
  let w' := snd (generate_image (inr thin_response) example_request stored_world) in
  generated_image (ui stored_world) = Some {| size := (1024, 512); pixels := [] |}
  /\ interpret_response thin_response
     = Image (png_signature ++ [x08; x00; x00; x01])
  /\ Image_open (png_signature ++ [x08; x00; x00; x01])
     = inr {| size := (2048, 1); pixels := [] |}
  /\ scaled_size 2048 1 = inr (768, 0)
  /\ Image_resize {| size := (2048, 1); pixels := [] |} (768, 0)
     = inl (lit "height and width must be > 0")
  /\ trace w'
     = [posted_request example_request;
        showerror (lit "Generation error") (lit "height and width must be > 0")]
  /\ status_var (ui w') = lit "Error: height and width must be > 0"
  /\ generated_image (ui w') = Some {| size := (2048, 1); pixels := [] |}
  /\ generated_image (ui w') <> generated_image (ui stored_world)
  /\ photo_image (ui w') = None /\ canvas (ui w') = [].
Proof.
  cbv zeta.
  assert (E : generated_image
                (ui (snd (generate_image (inr thin_response) example_request
                            stored_world)))
              = Some {| size := (2048, 1); pixels := [] |})
    by (vm_compute; reflexivity).
  repeat split; try (vm_compute; reflexivity).
  rewrite E. discriminate.
Qed.
Example scaled_1024_512 : scaled_size 1024 512 = inr (768, 384).
Proof. vm_compute. reflexivity. Qed.

Example scaled_small : scaled_size 320 200 = inr (320, 200).
Proof. vm_compute. reflexivity. Qed.

(** The quotient [512 / 7654321] rounds down, and the height comes out one
    pixel short of 512. *)
Example scaled_one_short : scaled_size 1234567 7654321 = inr (82, 511).
Proof. vm_compute. reflexivity. Qed.


(** A whole run: the request is posted, the image decoded and stored, and
    the canvas shows it at 768 by 384. *)
Example generate_from_png :
  let w' := snd (generate_image (inr png_response) example_request
                   (fresh_world (lit "a cat"))) in
  generated_image (ui w') = Some {| size := (1024, 512); pixels := [] |}
  /\ photo_image (ui w') = Some {| size := (768, 384); pixels := [] |}
  /\ status_var (ui w') = lit "Image generated successfully."
  /\ List.length (trace w') = 1%nat
  /\ existsb is_network_call (trace w') = true.
Proof. vm_compute. repeat split; reflexivity. Qed.

(** An exception raised by [display_image] comes after the assignment of
    line 187: the handler reports it, and the slot holds the new image. *)
Example render_error_after_assignment :
  let w' := snd (generate_image (inr thin_response) example_request
                   (fresh_world (lit "a cat"))) in
  scaled_size 2048 1 = inr (768, 0)
  /\ generated_image (ui w') = Some {| size := (2048, 1); pixels := [] |}
  /\ status_var (ui w') = lit "Error: height and width must be > 0".
Proof. vm_compute. repeat split; reflexivity. Qed.
End Examples.

(** * More of the program *)

(** ** The handlers, case by case *)

Section HandlerCases.
Context {rt : Runtime}.

(** X6.  [display_image] either raises and leaves the window exactly as it
    was (the old picture stays on the canvas), or resizes to the computed
    size, keeps the result as the photo image and leaves that one item,
    centred, on the canvas. *)
Theorem display_raises_or_redraws (pil_img : pil_image) (w : world) :
  (exists e, display_image pil_img w = (inl e, w))
  \/ (exists new_size resized,
        scaled_size (fst (size pil_img)) (snd (size pil_img)) = inr new_size
        /\ Image_resize pil_img new_size = inr resized
        /\ display_image pil_img w
           = (inr tt, {| ui := with_canvas [image_item resized]
                                 (with_photo_image (Some resized) (ui w));
                         trace := trace w |})).
Proof. exact (display_image_run pil_img w). Qed.

Lemma generate_image_run (net : exn + response) (args : request) (w : world) :
  fst (generate_image net args w) = inr tt
  /\ generation_outcome args w (snd (generate_image net args w)).
Proof.
  unfold generate_image. fold (posted_request args).
  destruct net as [e|resp]; run_handler.
  - split; [reflexivity|]. rewrite <- app_assoc. exact (failed_before_store args w e).
  - destruct (interpret_response resp) as [b|e]; run_handler.
    + destruct (Image_open b) as [e|img]; run_handler.
      * split; [reflexivity|]. rewrite <- app_assoc. exact (failed_before_store args w e).
      * match goal with
        | |- context [display_image img ?w0] =>
            destruct (display_image_run img w0)
              as [[e He] | (new_size & resized & _ & _ & He)]; rewrite He
        end; run_handler.
        -- split; [reflexivity|]. rewrite <- app_assoc.
           exact (failed_after_store args w img e).
        -- split; [reflexivity|]. exact (generated args w img resized).
    + split; [reflexivity|]. rewrite <- app_assoc. exact (failed_before_store args w e).
Qed.

(** X4.  A run of [generate_image] never raises and posts exactly one
    request, first of all.  It ends in one of three ways: an error before the
    image is stored, an error after it is stored, or success.  An error puts
    its text on the status line after "Error: " and in one "Generation
    error" dialog and leaves photo image and canvas alone; success shows no
    dialog. *)
Theorem generation_ends_in_three_ways (net : exn + response) (args : request)
    (w : world) :
  fst (generate_image net args w) = inr tt
  /\ generation_outcome args w (snd (generate_image net args w)).
Proof. exact (generate_image_run net args w). Qed.

(** X5.  A response that yields image bytes which decode, scale and
    resize: the run stores the decoded image, keeps the resized one as the
    photo image, leaves that one item on the canvas, reports success on the
    status line and shows no dialog. *)
Theorem generate_image_success (resp : response) (b : bytes) (img resized : pil_image)
    (new_size : Z * Z) (args : request) (w : world) :
  interpret_response resp = Image b ->
  Image_open b = inr img ->
  scaled_size (fst (size img)) (snd (size img)) = inr new_size ->
  Image_resize img new_size = inr resized ->
  generate_image (inr resp) args w
  = (inr tt,
     {| ui := with_status (lit "Image generated successfully.")
                (with_canvas [image_item resized]
                   (with_photo_image (Some resized)
                      (with_generated_image (Some img) (ui w))));
        trace := trace w ++ [posted_request args] |}).
Proof.
  intros Hi Ho Hs Hr. unfold generate_image. fold (posted_request args).
  run_handler. rewrite Hi. run_handler. rewrite Ho. run_handler.
  unfold display_image, show_resized. destruct (size img) as [iw ih].
  cbn [fst snd] in Hs. run_handler. rewrite Hs. run_handler. rewrite Hr.
  reflexivity.
Qed.

Lemma on_generate_clicked_cases (getenv_token : option pystr) (w : world) :
  (exists dialog,
      (dialog = prompt_missing_dialog \/ dialog = token_missing_dialog)
      /\ on_generate_clicked getenv_token w
         = (inr tt, {| ui := ui w; trace := trace w ++ [dialog] |}))
  \/ (exists e, on_generate_clicked getenv_token w = (inl e, w))
  \/ (exists width height steps,
        on_generate_clicked getenv_token w
        = (inr tt,
           {| ui := ui w;
              trace := trace w
                       ++ [thread_start
                             (thread_args getenv_token (ui w) width height steps)] |})).
Proof.
  unfold on_generate_clicked, thread_args. run_handler.
  destruct (str_truthy (strip (prompt_text (ui w)))); cbn [negb].
  2:{ left. exists prompt_missing_dialog. split; [now left | reflexivity]. }
  destruct (found_truthy (str_or (strip (api_token_var (ui w))) getenv_token));
    cbn [negb].
  2:{ left. exists token_missing_dialog. split; [now right | reflexivity]. }
  destruct (width_var (ui w)) as [e|width]; [right; left; exists e; now destruct w|].
  destruct (height_var (ui w)) as [e|height]; [right; left; exists e; now destruct w|].
  destruct (steps_var (ui w)) as [e|steps]; [right; left; exists e; now destruct w|].
  right. right. exists width, height, steps. reflexivity.
Qed.

Lemma click_thread_run (getenv_token : option pystr) (w : world)
    (width height steps : Z) :
  str_truthy (strip (prompt_text (ui w))) = true ->
  found_truthy (str_or (strip (api_token_var (ui w))) getenv_token) = true ->
  width_var (ui w) = inr width ->
  height_var (ui w) = inr height ->
  steps_var (ui w) = inr steps ->
  on_generate_clicked getenv_token w
  = (inr tt,
     {| ui := ui w;
        trace := trace w
                 ++ [thread_start
                       (thread_args getenv_token (ui w) width height steps)] |}).
Proof.
  intros Hp Ht Hw Hh Hs.
  unfold on_generate_clicked. run_handler. rewrite Hp, Ht, Hw, Hh, Hs. reflexivity.
Qed.

(** X1.  A click with a prompt, a token (typed, or else from the
    environment) and three readable numbers shows no dialog and starts one
    thread, on the stripped prompt; a typed token wins over the environment,
    and the environment's token is passed as it is. *)
Theorem click_starts_one_thread (getenv_token : option pystr) (w : world)
    (width height steps : Z) :
  str_truthy (strip (prompt_text (ui w))) = true ->
  found_truthy (str_or (strip (api_token_var (ui w))) getenv_token) = true ->
  width_var (ui w) = inr width ->
  height_var (ui w) = inr height ->
  steps_var (ui w) = inr steps ->
  let args := thread_args getenv_token (ui w) width height steps in
  on_generate_clicked getenv_token w
  = (inr tt, {| ui := ui w; trace := trace w ++ [thread_start args] |})
  /\ req_prompt args = strip (prompt_text (ui w))
  /\ (str_truthy (strip (api_token_var (ui w))) = true ->
      req_token args = strip (api_token_var (ui w)))
  /\ (str_truthy (strip (api_token_var (ui w))) = false ->
      getenv_token = Some (req_token args))
  /\ (strip (model_var (ui w)) = [] -> req_model args = DEFAULT_MODEL).
Proof.
  intros Hp Ht Hw Hh Hs args. split; [|split; [reflexivity|split; [|split]]].
  - now apply click_thread_run.
  - intros Hf. unfold args, thread_args, str_or. cbn [req_token]. now rewrite Hf.
  - intros Hf. unfold args, thread_args, str_or in *. cbn [req_token].
    rewrite Hf in *. destruct getenv_token as [t|]; [reflexivity | discriminate].
  - intros Hm. unfold args, thread_args. cbn [req_model]. now rewrite Hm.
Qed.

(** X2.  When one of the three number fields cannot be read, the exception
    of the first such field leaves the handler: no dialog is shown, no thread
    is started, nothing is posted and the window is as before. *)
Theorem unreadable_number_stops_click (getenv_token : option pystr)
    (net : exn + response) (w : world) (e : exn) :
  str_truthy (strip (prompt_text (ui w))) = true ->
  found_truthy (str_or (strip (api_token_var (ui w))) getenv_token) = true ->
  width_var (ui w) = inl e
  \/ (exists width, width_var (ui w) = inr width /\ height_var (ui w) = inl e)
  \/ (exists width height,
        width_var (ui w) = inr width /\ height_var (ui w) = inr height
        /\ steps_var (ui w) = inl e) ->
  on_generate_clicked getenv_token w = (inl e, w)
  /\ dispatch getenv_token net w = (inl e, w).
Proof.
  intros Hp Ht Hv.
  assert (H : forall w0, ui w0 = ui w -> on_generate_clicked getenv_token w0 = (inl e, w0)).
  { intros w0 E. unfold on_generate_clicked. run_handler. rewrite E, Hp, Ht.
    cbn [negb].
    destruct Hv as [Hw | [(width & Hw & Hh) | (width & height & Hw & Hh & Hs)]].
    - now rewrite Hw.
    - now rewrite Hw, Hh.
    - now rewrite Hw, Hh, Hs. }
  split; [now apply H|].
  unfold dispatch. rewrite H by reflexivity. cbn [run_threads trace ui]. unfold ret.
  rewrite app_nil_r. now destruct w.
Qed.

(** X7.  With an image in the slot, "Save Image" writes that image
    once to the fixed file name and shows one dialog, "Saved" or "Save
    error" with the exception's text; the window is not changed and no
    exception leaves the handler. *)
Theorem save_writes_stored_image (fs : option exn) (w : world) (img : pil_image) :
  generated_image (ui w) = Some img ->
  save_image fs w
  = (inr tt,
     {| ui := ui w;
        trace := trace w
                 ++ [image_save img (lit "hf_generated_image.png");
                     match fs with
                     | None => showinfo (lit "Saved")
                                 (lit "Image saved as hf_generated_image.png")
                     | Some e => showerror (lit "Save error") e
                     end] |}).
Proof.
  intros H. unfold save_image. run_handler. rewrite H. run_handler.
  destruct fs as [e|]; run_handler; now rewrite <- app_assoc.
Qed.
End HandlerCases.

Section ActionFacts.
Context {rt : Runtime}.

Lemma dispatch_cases (getenv_token : option pystr) (net : exn + response) (w : world) :
  ui (snd (dispatch getenv_token net w)) = ui w
  \/ exists args w0,
       ui w0 = ui w /\ generation_outcome args w0 (snd (dispatch getenv_token net w)).
Proof.
  unfold dispatch.
  destruct (on_generate_clicked_cases getenv_token {| ui := ui w; trace := [] |})
    as [(d & Hd & E) | [(e & E) | (width & height & steps & E)]]; rewrite E;
    cbn [ui trace List.app run_threads].
  - left. destruct Hd as [-> | ->]; reflexivity.
  - left. reflexivity.
  - right. set (args := thread_args getenv_token (ui w) width height steps).
    set (w0 := {| ui := ui w; trace := trace w ++ [thread_start args] |}).
    exists args, w0. split; [reflexivity|].
    pose proof (generate_image_run net args w0) as [Hr Ho].
    unfold bind. destruct (generate_image net args w0) as [r w']. cbn [fst snd] in *.
    subst r. exact Ho.
Qed.

Lemma save_image_ui (fs : option exn) (w : world) : ui (snd (save_image fs w)) = ui w.
Proof.
  unfold save_image. run_handler. destruct (generated_image (ui w)) as [img|];
    run_handler; [|reflexivity].
  destruct fs; reflexivity.
Qed.

(** X8.  Generating, clearing and saving never change what the user typed:
    prompt, token, model and the three numbers are as before. *)
Theorem handlers_keep_the_form (a : action) (w : world) :
  is_edit a = false ->
  form_of (ui (snd (perform a w))) = form_of (ui w).
Proof.
  destruct a as [p t m wi he st | env net | | fs]; intros H; try discriminate;
    cbn [perform].
  - destruct (dispatch_cases env net w) as [E | (args & w0 & E & Ho)].
    + now rewrite E.
    + destruct Ho; cbn [ui]; unfold form_of; cbn; now rewrite E.
  - reflexivity.
  - now rewrite save_image_ui.
Qed.

End ActionFacts.

(** ** More on the response interpreter *)

Lemma contains_middle (before x after : pystr) : contains (before ++ x ++ after) x.
Proof. now exists before, after. Qed.

Lemma flat_map_map {A B C} (f : A -> B) (g : B -> list C) (l : list A) :
  flat_map g (map f l) = flat_map (fun x => g (f x)) l.
Proof. induction l as [|x l IH]; simpl; [reflexivity | now rewrite IH]. Qed.

Lemma nth_error_firstn_lt {A} (n i : nat) (l : list A) :
  (i < n)%nat -> nth_error (firstn n l) i = nth_error l i.
Proof.
  revert i l. induction n as [|n IH]; intros i l H; [lia|].
  destruct l as [|x l]; [now destruct i|]. destruct i as [|i]; [reflexivity|].
  simpl. apply IH. lia.
Qed.

Section InterpreterMore.
Context {rt : Runtime}.

(** X10.  On the JSON path with no error reported and no string that passes
    the heuristic, the result is a failure: for the body [null] the message
    for a body that is not JSON, although the parse succeeded; for any other
    body the message that carries the status code and the body itself. *)
Theorem nothing_to_decode_is_reported (resp : response) (j : json) :
  is_image_response resp = false ->
  json_result resp = Some j ->
  has_error j = false ->
  no_candidate j ->
  (j = JNull -> interpret_response resp = Failure (not_json_message resp))
  /\ (j <> JNull ->
      interpret_response resp = Failure (unexpected_message resp j)
      /\ contains (unexpected_message resp j) (str_of_int (status_code resp))
      /\ contains (unexpected_message resp j) (py_str j)).
Proof.
  intros Hi Hj He Hn. apply parsed_some in Hj. subst j.
  apply no_candidate_iff in Hn.
  assert (E : interpret_response resp
              = Failure (match parsed resp with
                         | JNull => not_json_message resp
                         | _ => unexpected_message resp (parsed resp)
                         end)).
  { rewrite (interpret_json_path resp Hi He). unfold after_search.
    now rewrite search_first_candidate, Hn. }
  split.
  - intros Hnull. rewrite E, Hnull. reflexivity.
  - intros Hnn. split; [|split].
    + rewrite E. destruct (parsed resp); try reflexivity. now elim Hnn.
    + unfold unexpected_message. apply contains_middle.
    + unfold unexpected_message. rewrite !app_assoc. apply contains_suffix.
Qed.

(** X11.  One character among the first 200 that is neither alphanumeric nor
    one of [+/=], newline, carriage return rejects the string, however long.
    The hyphen and the underscore of the URL-safe alphabet, the colon and the
    space are such characters, so a [data:] URI is never a candidate. *)
Theorem foreign_character_rejects :
  (forall s c i, (i < 200)%nat -> nth_error s i = Some c -> b64_char c = false ->
                 looks_like_base64 s = false)
  /\ (b64_char 45%N = false /\ b64_char 95%N = false
      /\ b64_char 58%N = false /\ b64_char 32%N = false)
  /\ (forall s, startswith (lit "data:") s = true -> looks_like_base64 s = false).
Proof.
  assert (H : forall s c i, (i < 200)%nat -> nth_error s i = Some c ->
                            b64_char c = false -> looks_like_base64 s = false).
  { intros s c i Hi Hn Hc. unfold looks_like_base64, slice_to.
    apply andb_false_iff. right.
    destruct (forallb b64_char (firstn 200 s)) eqn:E; [|reflexivity].
    rewrite forallb_forall in E. rewrite <- Hc. symmetry. apply E.
    apply nth_error_In with i. now rewrite nth_error_firstn_lt. }
  split; [exact H|]. split; [repeat split|].
  intros s Hs. change (lit "data:") with [100; 97; 116; 97; 58]%N in Hs.
  destruct s as [|c0 [|c1 [|c2 [|c3 [|c4 s]]]]]; cbn [startswith] in Hs;
    try discriminate Hs;
    try (rewrite !andb_false_r in Hs; discriminate Hs).
  do 4 (apply andb_prop in Hs as [_ Hs]).
  apply andb_prop in Hs as [Hs _]. apply N.eqb_eq in Hs. subst c4.
  apply (H _ 58%N 4%nat); [lia | reflexivity | reflexivity].
Qed.

(** X12.  What the search returns is a string value of the body that passes
    the heuristic; it returns nothing exactly when no string value passes;
    the keys of an object are never looked at: an object is searched as the
    list of its values. *)
Theorem search_finds_values_only (j : json) :
  (forall s, search_for_base64 j None = Some s ->
             In s (dfs_strings j) /\ looks_like_base64 s = true)
  /\ (search_for_base64 j None = None <-> no_candidate j)
  /\ (forall entries, j = JDict entries ->
        search_for_base64 j None = search_for_base64 (JList (map snd entries)) None).
Proof.
  split; [|split].
  - intros s Hs. rewrite search_first_candidate in Hs. now apply find_some in Hs.
  - rewrite search_first_candidate. symmetry. apply no_candidate_iff.
  - intros entries ->. rewrite !search_first_candidate. unfold first_candidate.
    cbn [dfs_strings]. now rewrite flat_map_map.
Qed.

End InterpreterMore.

(** ** More on the arithmetic of the renderer *)

Lemma in_sides_up_to (n w : Z) : 0 < w <= n -> In w (sides_up_to n).
Proof.
  intros H. unfold sides_up_to. rewrite <- (Z2Nat.id w) by lia.
  apply in_map, in_seq. lia.
Qed.

Lemma one_or_above_spec (q : exn + pyfloat) :
  one_or_above q = true ->
  exists a, q = inr a /\ (a = float_one \/ float_ltb float_one a = true).
Proof.
  destruct q as [e|[s|s| |[|] m e]]; try discriminate. cbn [one_or_above].
  intros H. eexists. split; [reflexivity|].
  apply orb_prop in H as [H|H]; [left | now right].
  apply andb_prop in H as [Hm He]. apply Pos.eqb_eq in Hm. apply Z.eqb_eq in He.
  now subst.
Qed.

Lemma width_quotients_checked :
  forallb (fun w => one_or_above (int_truediv max_w w)) (sides_up_to max_w) = true.
Proof. vm_compute. reflexivity. Qed.

Lemma height_quotients_checked :
  forallb (fun h => one_or_above (int_truediv max_h h)) (sides_up_to max_h) = true.
Proof. vm_compute. reflexivity. Qed.

Lemma sides_checked : forallb side_kept (sides_up_to max_w) = true.
Proof. vm_compute. reflexivity. Qed.

(** With both quotients at or above [1.0], the factor is the float [1.0]. *)
Lemma min3_is_one (a b : pyfloat) :
  a = float_one \/ float_ltb float_one a = true ->
  b = float_one \/ float_ltb float_one b = true ->
  min3 a b float_one = float_one.
Proof.
  intros Ha Hb. unfold min3.
  assert (H : forall m, (m = float_one \/ float_ltb float_one m = true) ->
                        (if float_ltb float_one m then float_one else m) = float_one).
  { intros m [-> | ->]; reflexivity. }
  destruct (float_ltb b a); now apply H.
Qed.

(** X14.  An image that fits the canvas, at most 768 wide and 512 high, is
    drawn at its own size: the factor is exactly [1.0] and both sides come
    back unchanged. *)
Theorem fitting_image_keeps_size (w h : Z) :
  0 < w <= max_w -> 0 < h <= max_h -> scaled_size w h = inr (w, h).
Proof.
  intros Hw Hh.
  pose proof width_quotients_checked as Qw. rewrite forallb_forall in Qw.
  pose proof height_quotients_checked as Qh. rewrite forallb_forall in Qh.
  pose proof sides_checked as Sk. rewrite forallb_forall in Sk.
  destruct (one_or_above_spec _ (Qw w (in_sides_up_to _ _ Hw))) as (a & Ea & Ha).
  destruct (one_or_above_spec _ (Qh h (in_sides_up_to _ _ Hh))) as (b & Eb & Hb).
  assert (Kw : side_kept w = true) by (apply Sk, in_sides_up_to; exact Hw).
  assert (Kh : side_kept h = true)
    by (apply Sk, in_sides_up_to; unfold max_w, max_h in *; lia).
  unfold scaled_size. rewrite Ea, Eb, (min3_is_one a b Ha Hb).
  unfold side_kept in Kw, Kh.
  destruct (int_mul_float w float_one) as [e|pw]; [discriminate|].
  destruct (int_of_float pw) as [e|zw]; [discriminate|].
  destruct (int_mul_float h float_one) as [e|ph]; [discriminate|].
  destruct (int_of_float ph) as [e|zh]; [discriminate|].
  apply Z.eqb_eq in Kw, Kh. now subst.
Qed.

Lemma inject_Z_pos (n : Z) : 0 < n -> (0 < inject_Z n)%Q.
Proof. intros H. change 0%Q with (inject_Z 0). now rewrite <- Zlt_Qlt. Qed.

(** X15.  An image more than 768 times as wide as it is high is scaled to a
    height of zero pixels (and a width of 767 or 768): the size asked of
    [resize] is empty.  Likewise for one more than 512 times as high as it
    is wide. *)
Theorem extreme_aspect_gives_empty_side (w h : Z) :
  0 < w < 2 ^ 31 -> 0 < h < 2 ^ 31 ->
  (max_w * h < w ->
   exists new_w, scaled_size w h = inr (new_w, 0) /\ 767 <= new_w <= 768)
  /\ (max_h * w < h ->
      exists new_h, scaled_size w h = inr (0, new_h) /\ 511 <= new_h <= 512).
Proof.
  intros Hw Hh.
  destruct (scaled_size_spec w h Hw Hh)
    as (nw & nh & Hs & (Bw & Bh) & _ & (Pw1 & Pw2) & (Ph1 & Ph2)).
  destruct (ideal_factor_facts w h ltac:(lia) ltac:(lia))
    as ((Ht0 & Hta & Htb & Ht1) & Hcases & _).
  set (t := ideal_factor w h) in *.
  pose proof (inject_Z_pos w ltac:(lia)) as HW.
  pose proof (inject_Z_pos h ltac:(lia)) as HH.
  set (W := inject_Z w) in *. set (H := inject_Z h) in *.
  assert (Ea : (inject_Z max_w / W * W == inject_Z max_w)%Q) by (field; lra).
  assert (Eb : (inject_Z max_h / H * H == inject_Z max_h)%Q) by (field; lra).
  change (inject_Z max_w) with 768%Q in *. change (inject_Z max_h) with 512%Q in *.
  set (ta := (768 / W)%Q) in *. set (tb := (512 / H)%Q) in *.
  assert (HW1 : (1 <= W)%Q)
    by (unfold W; change 1%Q with (inject_Z 1); rewrite <- Zle_Qle; lia).
  assert (HH1 : (1 <= H)%Q)
    by (unfold H; change 1%Q with (inject_Z 1); rewrite <- Zle_Qle; lia).
  assert (Pa : (ta * (W * H) == 768 * H)%Q) by (rewrite <- Ea; ring).
  assert (Pb : (tb * (W * H) == 512 * W)%Q) by (rewrite <- Eb; ring).
  assert (PWH : (0 < W * H)%Q) by nra.
  split; intros Hx.
  - assert (HxQ : (768 * H < W)%Q).
    { unfold H, W. change 768%Q with (inject_Z 768).
      rewrite <- inject_Z_mult, <- Zlt_Qlt. exact Hx. }
    assert (Et : (t == ta)%Q).
    { destruct Hcases as [E | [E | E]]; [exact E | exfalso | exfalso].
      - rewrite E in Hta.
        assert (0 <= (ta - tb) * (W * H))%Q by (apply Qmult_le_0_compat; lra).
        nra.
      - rewrite E in Hta. nra. }
    assert (Z1 : (inject_Z nh < inject_Z 1)%Q).
    { change (inject_Z 1) with 1%Q. rewrite Et in Ph2. nra. }
    assert (Z2 : (inject_Z 766 < inject_Z nw)%Q).
    { change (inject_Z 766) with 766%Q. rewrite Et in Pw1. nra. }
    rewrite <- Zlt_Qlt in Z1, Z2.
    exists nw. assert (nh = 0) by lia. subst nh. split; [exact Hs|].
    unfold max_w in Bw. lia.
  - assert (HxQ : (512 * W < H)%Q).
    { unfold H, W. change 512%Q with (inject_Z 512).
      rewrite <- inject_Z_mult, <- Zlt_Qlt. exact Hx. }
    assert (Et : (t == tb)%Q).
    { destruct Hcases as [E | [E | E]]; [exfalso | exact E | exfalso].
      - rewrite E in Htb.
        assert (0 <= (tb - ta) * (W * H))%Q by (apply Qmult_le_0_compat; lra).
        nra.
      - rewrite E in Htb. nra. }
    assert (Z1 : (inject_Z nw < inject_Z 1)%Q).
    { change (inject_Z 1) with 1%Q. rewrite Et in Pw2. nra. }
    assert (Z2 : (inject_Z 510 < inject_Z nh)%Q).
    { change (inject_Z 510) with 510%Q. rewrite Et in Ph1. nra. }
    rewrite <- Zlt_Qlt in Z1, Z2.
    exists nh. assert (nw = 0) by lia. subst nw. split; [exact Hs|].
    unfold max_h in Bh. lia.
Qed.

(** ** More of the program on concrete inputs *)

Section MoreExamples.
Existing Instance example_runtime.

Lemma click_with_env_token :
  on_generate_clicked (Some (lit "hf_token")) (fresh_world (lit "  a cat "))
  = (inr tt,
     {| ui := fresh_app (lit "  a cat ");
        trace := [thread_start
                    {| req_token := lit "hf_token"; req_model := DEFAULT_MODEL;
                       req_prompt := lit "a cat"; req_width := 512;
                       req_height := 512; req_steps := 25 |}] |}).
Proof.
  exact (proj1 (click_starts_one_thread (Some (lit "hf_token"))
                  (fresh_world (lit "  a cat ")) 512 512 25
                  eq_refl eq_refl eq_refl eq_refl eq_refl)).
Defined.

Lemma click_with_letters_for_width :
  on_generate_clicked None unreadable_width_world
  = (inl (lit "expected floating-point number"), unreadable_width_world)
  /\ dispatch None (inr png_response) unreadable_width_world
     = (inl (lit "expected floating-point number"), unreadable_width_world).
Proof.
  exact (unreadable_number_stops_click None (inr png_response)
           unreadable_width_world (lit "expected floating-point number")
           eq_refl eq_refl (or_introl eq_refl)).
Defined.

Lemma png_generated :
  generate_image (inr png_response) example_request (fresh_world (lit "a cat"))
  = (inr tt,
     {| ui := with_status (lit "Image generated successfully.")
                (with_canvas [image_item {| size := (768, 384); pixels := [] |}]
                   (with_photo_image (Some {| size := (768, 384); pixels := [] |})
                      (with_generated_image
                         (Some {| size := (1024, 512); pixels := [] |})
                         (fresh_app (lit "a cat")))));
        trace := [posted_request example_request] |}).
Proof.
  exact (generate_image_success png_response png_bytes
           {| size := (1024, 512); pixels := [] |}
           {| size := (768, 384); pixels := [] |} (768, 384)
           example_request (fresh_world (lit "a cat"))
           eq_refl eq_refl scaled_1024_512 eq_refl).
Defined.

Lemma stored_image_saved :
  save_image None stored_world
  = (inr tt,
     {| ui := ui stored_world;
        trace := [image_save {| size := (1024, 512); pixels := [] |}
                    (lit "hf_generated_image.png");
                  showinfo (lit "Saved")
                    (lit "Image saved as hf_generated_image.png")] |}).
Proof.
  exact (save_writes_stored_image None stored_world
           {| size := (1024, 512); pixels := [] |} eq_refl).
Defined.

Lemma clear_keeps_the_form :
  form_of (ui (snd (perform Clear stored_world))) = form_of (ui stored_world).
Proof. exact (handlers_keep_the_form Clear stored_world eq_refl). Defined.

Lemma no_payload_reported :
  interpret_response no_payload_response
  = Failure (unexpected_message no_payload_response
               (JDict [(lit "status", JStr (lit "ok"))]))
  /\ contains (unexpected_message no_payload_response
                 (JDict [(lit "status", JStr (lit "ok"))]))
       (str_of_int 200)
  /\ contains (unexpected_message no_payload_response
                 (JDict [(lit "status", JStr (lit "ok"))]))
       (py_str (JDict [(lit "status", JStr (lit "ok"))])).
Proof.
  refine (proj2 (nothing_to_decode_is_reported no_payload_response
                   (JDict [(lit "status", JStr (lit "ok"))])
                   eq_refl eq_refl eq_refl _) _).
  - repeat constructor.
  - discriminate.
Defined.

Lemma data_uri_rejected :
  looks_like_base64 (lit "data:image/png;base64," ++ three_hundred_A) = false.
Proof.
  exact (proj2 (proj2 foreign_character_rejects)
           (lit "data:image/png;base64," ++ three_hundred_A) eq_refl).
Defined.

Lemma nested_payload_is_a_value :
  In three_hundred_A (dfs_strings nested_payload)
  /\ looks_like_base64 three_hundred_A = true.
Proof.
  apply (proj1 (search_finds_values_only nested_payload) three_hundred_A).
  vm_compute. reflexivity.
Defined.


Lemma small_image_unchanged : scaled_size 320 200 = inr (320, 200).
Proof.
  apply (fitting_image_keeps_size 320 200); unfold max_w, max_h; lia.
Defined.

Lemma thin_image_has_no_height :
  exists new_w, scaled_size 2048 1 = inr (new_w, 0) /\ 767 <= new_w <= 768.
Proof.
  exact (proj1 (extreme_aspect_gives_empty_side 2048 1
                  (conj eq_refl eq_refl) (conj eq_refl eq_refl)) eq_refl).
Defined.
End MoreExamples.
